(** * glass-chat-craft: the chat transcript of a draft

    A shallow embedding of the message-history code of [src/pages/Chat.tsx]
    ([fetchDraft], [deleteFeedback]), of the feedback write
    path of the campaign edge function and of the [email_feedbacks] table of
    the first migration, with the properties of the conversation transcript
    proved about them. *)

From Stdlib Require Import ZArith List Bool String Ascii Lia Sorted.
From Stdlib Require Import DecimalString Permutation.
Import ListNotations.
Open Scope string_scope.
Open Scope Z_scope.

(** ** JavaScript values the page relies on *)

Module JS.

(** A [Date] object is its time value: milliseconds since the epoch, or
    [None] for an Invalid Date (time value NaN). *)
Definition Date : Type := option Z.

(** [a > b] and [a < b] on two Date objects compare the time values as
    numbers; a comparison that involves NaN is false. *)
Definition gt (a b : Date) : bool :=
  match a, b with
  | Some x, Some y => y <? x
  | _, _ => false
  end.

Definition lt (a b : Date) : bool :=
  match a, b with
  | Some x, Some y => x <? y
  | _, _ => false
  end.

(** [a <= b] on time values, used to say that a list comes ordered by
    [created_at]. *)
Definition le (a b : Date) : bool :=
  match a, b with
  | Some x, Some y => x <=? y
  | _, _ => false
  end.

(** Truthiness of [s] where [s] is a string or [undefined]: the empty string
    and [undefined] are falsy. *)
Definition truthy (s : option string) : bool :=
  match s with
  | Some s => negb (s =? EmptyString)%string
  | None => false
  end.

(** [xs.push(x)] on an array held as a list. *)
Definition push {A : Type} (xs : list A) (x : A) : list A := xs ++ [x].

(** *** The wall clock

    [new Date()] reads the wall clock.  A computation that may read it is a
    function from the number of readings taken so far to its result and the
    new number of readings; the [n]-th reading itself is given by the
    environment (the [now] of the sections below). *)
Definition Clocked (A : Type) : Type := nat -> A * nat.

Definition ret {A : Type} (a : A) : Clocked A := fun k => (a, k).

Definition bind {A B : Type} (c : Clocked A) (f : A -> Clocked B) : Clocked B :=
  fun k => let (a, k') := c k in f a k'.

(** [xs.filter(p)] where the callback [p] may read the clock: the elements
    are visited from left to right. *)
Fixpoint filter {A : Type} (p : A -> Clocked bool) (xs : list A)
  : Clocked (list A) :=
  match xs with
  | [] => ret []
  | x :: xs' =>
      bind (p x) (fun keep =>
      bind (filter p xs') (fun rest =>
      ret (if keep then x :: rest else rest)))
  end.

(** [xs.forEach((x, index) => ...)] where the callback updates a value [s]
    (here the array it pushes to) and may read the clock; [index] is the
    position of [x] in the array. *)
Fixpoint forEach_from {A S : Type} (index : nat)
  (body : S -> A -> nat -> Clocked S) (xs : list A) (s : S) : Clocked S :=
  match xs with
  | [] => ret s
  | x :: xs' =>
      bind (body s x index) (fun s' => forEach_from (Datatypes.S index) body xs' s')
  end.

Definition forEach {A S : Type} (body : S -> A -> nat -> Clocked S)
  (xs : list A) (s : S) : Clocked S :=
  forEach_from 0 body xs s.

(** *** A reference instance of date-string parsing

    [Date_parse_utc] reads the UTC form [YYYY-MM-DDTHH:mm:ss.sssZ] of the
    ECMAScript date-time string format and is Invalid Date on every other
    string.  The theorems below hold for any parsing function that makes the
    empty string an Invalid Date; this instance evaluates the code at
    concrete rows. *)
Definition digit (c : ascii) : option Z :=
  let n := Z.of_nat (nat_of_ascii c) in
  if (48 <=? n) && (n <=? 57) then Some (n - 48) else None.

Fixpoint number (acc : Z) (cs : list ascii) : option Z :=
  match cs with
  | [] => Some acc
  | c :: cs' =>
      match digit c with
      | Some d => number (10 * acc + d) cs'
      | None => None
      end
  end.

Definition is_leap (y : Z) : bool :=
  ((y mod 4 =? 0) && negb (y mod 100 =? 0)) || (y mod 400 =? 0).

Definition days_in_month (y m : Z) : Z :=
  if m =? 2 then (if is_leap y then 29 else 28)
  else if (m =? 4) || (m =? 6) || (m =? 9) || (m =? 11) then 30
  else 31.

(** Days from 1970-01-01 to the given day of the proleptic Gregorian
    calendar. *)
Definition days_from_civil (y m d : Z) : Z :=
  let y' := if m <=? 2 then y - 1 else y in
  let era := y' / 400 in
  let yoe := y' - era * 400 in
  let doy := (153 * (if 2 <? m then m - 3 else m + 9) + 2) / 5 + d - 1 in
  let doe := yoe * 365 + yoe / 4 - yoe / 100 + doy in
  era * 146097 + doe - 719468.

Definition Date_parse_utc (s : string) : Date :=
  match list_ascii_of_string s with
  | [y1; y2; y3; y4; "-"; mo1; mo2; "-"; d1; d2; "T";
     h1; h2; ":"; mi1; mi2; ":"; s1; s2; "."; f1; f2; f3; "Z"]%char =>
      match number 0 [y1; y2; y3; y4], number 0 [mo1; mo2], number 0 [d1; d2],
            number 0 [h1; h2], number 0 [mi1; mi2], number 0 [s1; s2],
            number 0 [f1; f2; f3] with
      | Some y, Some mo, Some d, Some h, Some mi, Some sec, Some ms =>
          if (1 <=? mo) && (mo <=? 12) && (1 <=? d) && (d <=? days_in_month y mo)
             && (h <=? 23) && (mi <=? 59) && (sec <=? 59)
          then Some ((((days_from_civil y mo d * 24 + h) * 60 + mi) * 60 + sec)
                     * 1000 + ms)
          else None
      | _, _, _, _, _, _, _ => None
      end
  | _ => None
  end.

End JS.

Notation "x <- c ;; k" := (JS.bind c (fun x => k))
  (at level 61, c at next level, right associativity).

(** ** The rows and the messages of the chat page *)

Module Chat.

(** [interface DraftVersion] *)
Record DraftVersion : Type := mkDraftVersion {
  dv_id : string;
  dv_version : Z;
  dv_content : string;
  dv_created_at : string
}.

(** [interface Feedback] *)
Record Feedback : Type := mkFeedback {
  fb_id : string;
  fb_feedback_text : string;
  fb_is_valid : bool;
  fb_created_at : string
}.

(** The [type] of a message: ['user' | 'assistant']. *)
Inductive MessageType : Type := user | assistant.

(** [interface Message]; the optional fields [isError] and [feedbackId] are
    [None] when the object literal leaves them out. *)
Record Message : Type := mkMessage {
  id : string;
  type : MessageType;
  content : string;
  isError : option bool;
  feedbackId : option string
}.

Definition MessageType_eqb (a b : MessageType) : bool :=
  match a, b with
  | user, user | assistant, assistant => true
  | _, _ => false
  end.

(** The three object literals [fetchDraft] pushes. *)
Definition initial_message (user_input : string) : Message :=
  {| id := "initial"; type := user; content := user_input;
     isError := None; feedbackId := None |}.

Definition version_message (version : DraftVersion) : Message :=
  {| id := "version-" ++ dv_id version; type := assistant;
     content := dv_content version;
     isError := None; feedbackId := None |}.

Definition feedback_message (feedback : Feedback) : Message :=
  {| id := "feedback-" ++ fb_id feedback; type := user;
     content := fb_feedback_text feedback;
     isError := Some (negb (fb_is_valid feedback));
     feedbackId := Some (fb_id feedback) |}.

Section Builder.

(** [new Date(s)] on a string: the time value the engine parses from [s]. *)
Variable Date_parse : string -> JS.Date.

(** The successive readings of the wall clock, in milliseconds. *)
Variable now : nat -> Z.

Definition new_Date (s : string) : JS.Clocked JS.Date :=
  JS.ret (Date_parse s).

Definition new_Date_now : JS.Clocked JS.Date :=
  fun k => (Some (now k), S k).

(** The callback of [feedbacks.filter] inside the loop over the versions. *)
Definition relevant (version : DraftVersion) (nextVersionDate : option string)
  (f : Feedback) : JS.Clocked bool :=
  feedbackDate <- new_Date (fb_created_at f) ;;
  versionDate <- new_Date (dv_created_at version) ;;
  nextVersionDateObj <-
    (match nextVersionDate with
     | Some s => if JS.truthy nextVersionDate then new_Date s else new_Date_now
     | None => new_Date_now
     end) ;;
  JS.ret (JS.gt feedbackDate versionDate && JS.lt feedbackDate nextVersionDateObj).

(** The callback of [versions.forEach]: push the version, select the
    feedbacks of its window, push them. *)
Definition interleave (versions : list DraftVersion) (feedbacks : list Feedback)
  (messageHistory : list Message) (version : DraftVersion) (index : nat)
  : JS.Clocked (list Message) :=
  let messageHistory := JS.push messageHistory (version_message version) in
  let nextVersionDate :=
    option_map dv_created_at (nth_error versions (index + 1)) in
  relevantFeedbacks <- JS.filter (relevant version nextVersionDate) feedbacks ;;
  JS.ret (fold_left (fun history feedback =>
                       JS.push history (feedback_message feedback))
                    relevantFeedbacks messageHistory).

(** Lines 182-220 of [fetchDraft]: the message history of a draft. *)
Definition buildMessageHistory (user_input : string)
  (versions : list DraftVersion) (feedbacks : list Feedback)
  : JS.Clocked (list Message) :=
  let messageHistory := JS.push [] (initial_message user_input) in
  JS.forEach (interleave versions feedbacks) versions messageHistory.

End Builder.

(** *** The page: its state and the two handlers that set the messages *)

(** The row of [drafts] the page keeps ([interface Draft]). *)
Record Draft : Type := mkDraft {
  d_id : string;
  d_brand_id : string;
  d_email_type : string;
  d_user_input : string;
  d_current_version : Z;
  d_brand_name : string
}.

(** A call of [toast({ title, description, variant })]. *)
Record Toast : Type := mkToast {
  title : string;
  description : string;
  destructive : bool
}.

(** The React state of [Chat] that the handlers below write, with the
    notifications shown and the route last navigated to.  Console output is
    left out. *)
Record State : Type := mkState {
  draft : option Draft;
  messages : list Message;
  loading : bool;
  toasts : list Toast;
  location : string
}.

Definition setDraft (d : option Draft) (st : State) : State :=
  {| draft := d; messages := messages st; loading := loading st;
     toasts := toasts st; location := location st |}.

Definition setMessages (ms : list Message) (st : State) : State :=
  {| draft := draft st; messages := ms; loading := loading st;
     toasts := toasts st; location := location st |}.

Definition setLoading (b : bool) (st : State) : State :=
  {| draft := draft st; messages := messages st; loading := b;
     toasts := toasts st; location := location st |}.

Definition toast (t : Toast) (st : State) : State :=
  {| draft := draft st; messages := messages st; loading := loading st;
     toasts := JS.push (toasts st) t; location := location st |}.

Definition navigate (path : string) (st : State) : State :=
  {| draft := draft st; messages := messages st; loading := loading st;
     toasts := toasts st; location := path |}.

(** What an awaited promise settles to. *)
Inductive Settled (A : Type) : Type :=
| Fulfilled (a : A)
| Rejected (reason : string).
Arguments Fulfilled {A} a.
Arguments Rejected {A} reason.

(** The [{ data, error }] a query of the storage client resolves to. *)
Record QueryResult (A : Type) : Type := mkQueryResult {
  data : option A;
  error : option string
}.
Arguments mkQueryResult {A} data error.
Arguments data {A} q.
Arguments error {A} q.

(** [await Promise.all([a, b])]: both results, or the rejection. *)
Definition Promise_all {A B : Type} (a : Settled A) (b : Settled B)
  : Settled (A * B) :=
  match a, b with
  | Fulfilled x, Fulfilled y => Fulfilled (x, y)
  | Rejected r, _ => Rejected r
  | _, Rejected r => Rejected r
  end.

(** A query failed: its promise rejects, or resolves with an [error]. *)
Definition failed {A : Type} (q : Settled (QueryResult A)) : bool :=
  match q with
  | Rejected _ => true
  | Fulfilled r => match error r with Some _ => true | None => false end
  end.

(** How a [try] block ends. *)
Inductive Completion : Type :=
| Normal
| Thrown (reason : string).

Section Page.

Variable Date_parse : string -> JS.Date.
Variable now : nat -> Z.

(** The [try] block of [fetchDraft], given what the three queries settle
    to. *)
Definition fetchDraft_try
  (draftResult : Settled (QueryResult Draft))
  (versionsQuery : Settled (QueryResult (list DraftVersion)))
  (feedbacksQuery : Settled (QueryResult (list Feedback)))
  (st : State) : JS.Clocked (Completion * State) :=
  match draftResult with
  | Rejected r => JS.ret (Thrown r, st)
  | Fulfilled draftResult =>
      match error draftResult with
      | Some draftError => JS.ret (Thrown draftError, st)
      | None =>
          let draftData := data draftResult in
          let st := setDraft draftData st in
          match Promise_all versionsQuery feedbacksQuery with
          | Rejected r => JS.ret (Thrown r, st)
          | Fulfilled (versionsResult, feedbacksResult) =>
              match error versionsResult with
              | Some e => JS.ret (Thrown e, st)
              | None =>
                  match error feedbacksResult with
                  | Some e => JS.ret (Thrown e, st)
                  | None =>
                      let versions :=
                        match data versionsResult with
                        | Some vs => vs | None => [] end in
                      let feedbacks :=
                        match data feedbacksResult with
                        | Some fs => fs | None => [] end in
                      match draftData with
                      | None =>
                          JS.ret (Thrown "TypeError: draftData is null", st)
                      | Some draftData =>
                          messageHistory <-
                            buildMessageHistory Date_parse now
                              (d_user_input draftData) versions feedbacks ;;
                          JS.ret (Normal, setMessages messageHistory st)
                      end
                  end
              end
          end
      end
  end.

(** [fetchDraft]: [draft_id] is the route parameter. *)
Definition fetchDraft (draft_id : option string)
  (draftResult : Settled (QueryResult Draft))
  (versionsQuery : Settled (QueryResult (list DraftVersion)))
  (feedbacksQuery : Settled (QueryResult (list Feedback)))
  (st : State) : JS.Clocked State :=
  if negb (JS.truthy draft_id)
     || match draft_id with Some s => (s =? "new")%string | None => false end
  then JS.ret st
  else
    let st := setLoading true st in
    r <- fetchDraft_try draftResult versionsQuery feedbacksQuery st ;;
    let st :=
      match fst r with
      | Normal => snd r
      | Thrown _ =>
          navigate "/chat/new"
            (toast {| title := "Error loading draft";
                      description := "Please try again.";
                      destructive := true |} (snd r))
      end in
    JS.ret (setLoading false st).

End Page.

(** The [Response] of the DELETE request, as far as it is read. *)
Record Response : Type := mkResponse { ok : bool }.

(** [m.feedbackId !== feedbackId] for an optional string and a string. *)
Definition feedbackId_differs (m : Message) (feedbackId : string) : bool :=
  match Chat.feedbackId m with
  | Some s => negb (s =? feedbackId)%string
  | None => true
  end.

(** [deleteFeedback], given what the DELETE request settles to. *)
Definition deleteFeedback (feedbackId : string) (response : Settled Response)
  (st : State) : State :=
  let failed st :=
    toast {| title := "Error deleting feedback";
             description := "Please try again.";
             destructive := true |} st in
  match response with
  | Rejected _ => failed st
  | Fulfilled response =>
      if negb (ok response) then failed st
      else
        let st :=
          setMessages
            (List.filter (fun m => feedbackId_differs m feedbackId) (messages st))
            st in
        toast {| title := "Feedback deleted";
                 description := "The feedback has been removed.";
                 destructive := false |} st
  end.

End Chat.

(** ** The [email_feedbacks] table and the code that writes it *)

Module Schema.

(** A row of [public.email_feedbacks]; every column is [NOT NULL]. *)
Record email_feedbacks : Type := mk_email_feedbacks {
  id : string;
  draft_id : string;
  user_id : string;
  feedback_text : string;
  is_valid : bool;
  created_at : string
}.

(** The object given to [.insert(...)]: a column left out is [None]. *)
Record email_feedbacks_insert : Type := mk_email_feedbacks_insert {
  ins_id : option string;
  ins_draft_id : option string;
  ins_user_id : option string;
  ins_feedback_text : option string;
  ins_is_valid : option bool;
  ins_created_at : option string
}.

(** [is_valid BOOLEAN NOT NULL DEFAULT true] *)
Definition is_valid_default : bool := true.

Definition or_default {A : Type} (given : option A) (default : A) : A :=
  match given with
  | Some a => a
  | None => default
  end.

(** The row an insert yields: [id], [is_valid] and [created_at] fall back on
    their defaults ([gen_random_uuid()], [true], [now()]); [draft_id],
    [user_id] and [feedback_text] have none, so leaving one out violates
    [NOT NULL] and there is no row. *)
Definition new_row (gen_random_uuid now : string)
  (values : email_feedbacks_insert) : option email_feedbacks :=
  match ins_draft_id values, ins_user_id values, ins_feedback_text values with
  | Some d, Some u, Some t =>
      Some {| id := or_default (ins_id values) gen_random_uuid;
              draft_id := d;
              user_id := u;
              feedback_text := t;
              is_valid := or_default (ins_is_valid values) is_valid_default;
              created_at := or_default (ins_created_at values) now |}
  | _, _, _ => None
  end.

Section Table.

(** The checks of the database that lie outside the column definitions
    (foreign keys, row-level security policies). *)
Variable accepts : email_feedbacks -> bool.

Definition insert (gen_random_uuid now : string)
  (values : email_feedbacks_insert) (table : list email_feedbacks)
  : list email_feedbacks :=
  match new_row gen_random_uuid now values with
  | Some row => if accepts row then table ++ [row] else table
  | None => table
  end.


End Table.

(** The [Feedback] the chat page reads from a row ([select('*')]). *)
Definition to_Feedback (row : email_feedbacks) : Chat.Feedback :=
  {| Chat.fb_id := id row;
     Chat.fb_feedback_text := feedback_text row;
     Chat.fb_is_valid := is_valid row;
     Chat.fb_created_at := created_at row |}.

End Schema.

Module Campaign.

(** The fields of [EmailGenerationRequest] that the feedback branch of the
    handler reads; a field absent from the JSON body is [None]. *)
Record EmailGenerationRequest : Type := mkRequest {
  user_id : option string;
  draft_id : option string;
  user_input : option string;
  feedback_text : option string
}.

(** [!request.draft_id], or [request.draft_id] is the empty string. *)
Definition isNewDraft (request : EmailGenerationRequest) : bool :=
  negb (JS.truthy (draft_id request))
  || match draft_id request with Some s => (s =? EmptyString)%string | None => false end.

(** The object the handler inserts into [email_feedbacks]. *)
Definition feedback_values (request : EmailGenerationRequest)
  : Schema.email_feedbacks_insert :=
  {| Schema.ins_id := None;
     Schema.ins_draft_id := draft_id request;
     Schema.ins_user_id := None;
     Schema.ins_feedback_text := feedback_text request;
     Schema.ins_is_valid := Some true;
     Schema.ins_created_at := None |}.

(** The handler as far as [email_feedbacks] goes: a new draft writes no
    feedback; otherwise the feedback is inserted once the current version of
    the draft has been read ([draft_found]).  The writes to [drafts] and
    [draft_versions] do not touch the table and are left out. *)
Definition handler (accepts : Schema.email_feedbacks -> bool)
  (gen_random_uuid now : string) (draft_found : bool)
  (request : EmailGenerationRequest) (table : list Schema.email_feedbacks)
  : list Schema.email_feedbacks :=
  if isNewDraft request then table
  else if negb draft_found then table
  else Schema.insert accepts gen_random_uuid now (feedback_values request) table.




End Campaign.

(** ** Notions used to state the properties of the transcript *)

Module Transcript.

Import Chat.

Definition is_assistant (m : Message) : bool :=
  MessageType_eqb (type m) assistant.

(** The number of assistant messages of a list: in a message history, the
    number of versions shown so far. *)
Definition assistants (ms : list Message) : nat :=
  List.length (List.filter is_assistant ms).

(** [m] carries the back-reference [x]. *)
Definition refers_to (x : string) (m : Message) : bool :=
  match feedbackId m with
  | Some s => (s =? x)%string
  | None => false
  end.

(** The number of messages of a list that refer to the feedback [x]. *)
Definition derived_from (x : string) (ms : list Message) : nat :=
  List.length (List.filter (refers_to x) ms).

(** The types alternate along the list, starting with [expected]. *)
Fixpoint alternates (expected : MessageType) (ms : list Message) : bool :=
  match ms with
  | [] => true
  | m :: ms' =>
      MessageType_eqb (type m) expected
      && alternates (match expected with user => assistant | assistant => user end)
                    ms'
  end.

(** [l1] is [l2] with some elements left out, the others in their order. *)
Inductive subseq {A : Type} : list A -> list A -> Prop :=
| subseq_nil : subseq [] []
| subseq_skip : forall x l1 l2, subseq l1 l2 -> subseq l1 (x :: l2)
| subseq_keep : forall x l1 l2, subseq l1 l2 -> subseq (x :: l1) (x :: l2).

Section Order.

Variable Date_parse : string -> JS.Date.

Definition version_date (v : DraftVersion) : JS.Date :=
  Date_parse (dv_created_at v).

Definition feedback_date (f : Feedback) : JS.Date :=
  Date_parse (fb_created_at f).

(** Version order and temporal order agree: each version was created
    strictly before the ones that follow it. *)
Definition chronological (versions : list DraftVersion) : Prop :=
  StronglySorted (fun v v' => JS.lt (version_date v) (version_date v') = true)
                 versions.

(** The feedbacks come in ascending [created_at], as [.order('created_at')]
    delivers them. *)
Definition by_created_at (feedbacks : list Feedback) : Prop :=
  StronglySorted (fun f g => JS.le (feedback_date f) (feedback_date g) = true)
                 feedbacks.

Variable now : nat -> Z.

(** The feedbacks selected for the version at [index]. *)
Definition window (versions : list DraftVersion) (feedbacks : list Feedback)
  (index : nat) (version : DraftVersion) : JS.Clocked (list Feedback) :=
  JS.filter
    (relevant Date_parse now version
       (option_map dv_created_at (nth_error versions (index + 1))))
    feedbacks.

(** What the loop over [vs], the versions from [index] on, appends. *)
Fixpoint segments (versions : list DraftVersion) (feedbacks : list Feedback)
  (index : nat) (vs : list DraftVersion) : JS.Clocked (list Message) :=
  match vs with
  | [] => JS.ret []
  | v :: vs' =>
      sel <- window versions feedbacks index v ;;
      tl <- segments versions feedbacks (S index) vs' ;;
      JS.ret (version_message v :: map feedback_message sel ++ tl)
  end.

End Order.

End Transcript.

(** ** Rows used to run the code *)

Module Examples.

Import Chat.

Definition T0 : string := "2024-03-01T10:00:00.000Z".
Definition T1 : string := "2024-03-01T10:05:00.000Z".
Definition T2 : string := "2024-03-01T10:10:00.000Z".
Definition T3 : string := "2024-03-01T10:15:00.000Z".
Definition T4 : string := "2024-03-01T10:20:00.000Z".

(** A wall clock that reads 2024-03-01T12:00:00.000Z, then one millisecond
    more at each reading. *)
Definition noon (n : nat) : Z := 1709294400000 + Z.of_nat n.


(** A wall clock read once every five minutes, from 10:12:00 on. *)
Definition every_five_minutes (n : nat) : Z :=
  1709287920000 + 300000 * Z.of_nat n.

Definition request : string := "Write a launch email".

Definition draftA : DraftVersion := mkDraftVersion "a" 1 "Draft A" T0.
Definition draftB : DraftVersion := mkDraftVersion "b" 2 "Draft B" T2.
Definition draftC : DraftVersion := mkDraftVersion "c" 3 "Draft C" T4.

Definition f1 : Feedback := mkFeedback "f1" "too long" false T1.
Definition f2 : Feedback := mkFeedback "f2" "friendlier" true T3.
Definition f_tie : Feedback := mkFeedback "f3" "shorter subject" true T2.
Definition f_early : Feedback := mkFeedback "f4" "add a link" true
                                   "2024-03-01T10:02:00.000Z".

Definition page : State :=
  {| draft := None;
     messages := [initial_message request;
                  version_message draftA;
                  feedback_message f1;
                  version_message draftB;
                  feedback_message f2];
     loading := false; toasts := []; location := "/chat/d1" |}.

Definition d1 : Draft :=
  mkDraft "d1" "brand" "product" "Write a launch email" 2 "Acme".

Definition denied : QueryResult (list Feedback) :=
  {| data := None; error := Some "permission denied" |}.

Definition found_versions : QueryResult (list DraftVersion) :=
  {| data := Some [draftA; draftB]; error := None |}.

Definition found_draft : QueryResult Draft :=
  {| data := Some d1; error := None |}.

Definition row1 : Schema.email_feedbacks :=
  Schema.mk_email_feedbacks "f1" "d1" "u1" "too long" true T1.

Definition request1 : Campaign.EmailGenerationRequest :=
  Campaign.mkRequest (Some "u1") (Some "d1") (Some "shorter")
                     (Some "make it shorter").

End Examples.

(** ** The rest of the chat page *)

Module ChatPage.

Import Chat.

(** The draft a load has fetched: the [data] of the draft query when it
    resolved without [error]. *)
Definition fetched_draft (draftResult : Settled (QueryResult Draft))
  : option Draft :=
  match draftResult with
  | Fulfilled r => match error r with None => data r | Some _ => None end
  | Rejected _ => None
  end.

(** The draft query got as far as [setDraft]. *)
Definition draft_query_passed (draftResult : Settled (QueryResult Draft))
  : bool := negb (failed draftResult).

(** [canDelete={!!(message.isError && message.feedbackId)}] *)
Definition canDelete (message : Message) : bool :=
  match isError message with
  | Some true => JS.truthy (feedbackId message)
  | _ => false
  end.

(** [onDelete={message.feedbackId ? () => deleteFeedback(message.feedbackId!)
    : undefined}]: the identifier the delete button would pass on. *)
Definition onDelete (message : Message) : option string :=
  if JS.truthy (feedbackId message) then feedbackId message else None.

(** [interface Brand] *)
Record Brand : Type := mkBrand {
  b_id : string;
  b_name : string
}.

(** The state of [Chat] beyond [State]: the brands, the first-time flag, the
    required fields of the form and the feedback input. *)
Record Page : Type := mkPage {
  state : State;
  brands : list Brand;
  isFirstTime : bool;
  selectedBrand : string;
  emailType : string;
  userInput : string;
  feedbackText : string
}.

Definition on_state (f : State -> State) (p : Page) : Page :=
  {| state := f (state p); brands := brands p; isFirstTime := isFirstTime p;
     selectedBrand := selectedBrand p; emailType := emailType p;
     userInput := userInput p; feedbackText := feedbackText p |}.

Definition setBrands (bs : list Brand) (p : Page) : Page :=
  {| state := state p; brands := bs; isFirstTime := isFirstTime p;
     selectedBrand := selectedBrand p; emailType := emailType p;
     userInput := userInput p; feedbackText := feedbackText p |}.


Definition setFeedbackText (s : string) (p : Page) : Page :=
  {| state := state p; brands := brands p; isFirstTime := isFirstTime p;
     selectedBrand := selectedBrand p; emailType := emailType p;
     userInput := userInput p; feedbackText := s |}.

(** [setMessages(prev => [...prev, message])] *)
Definition appendMessage (message : Message) (p : Page) : Page :=
  on_state (fun st => setMessages (JS.push (messages st) message) st) p.

(** What [await response.json()] gives, as far as it is read. *)
Record GenerationData : Type := mkGenerationData {
  email_draft_result : string;
  draft_id : string
}.

(** The answer of the generation webhook: the response, and what its
    [json()] settles to. *)
Record Generation : Type := mkGeneration {
  response : Response;
  json : Settled GenerationData
}.

(** A number in a template literal: the decimal digits of an integer. *)
Definition Number_toString (n : Z) : string :=
  NilZero.string_of_int (Z.to_int n).

(** [fetchBrands], given what the query settles to. *)
Definition fetchBrands (result : Settled (QueryResult (list Brand)))
  (p : Page) : Page :=
  let failure p :=
    on_state (toast {| title := "Error loading brands";
                       description :=
                         "Please try again or create a brand first.";
                       destructive := true |}) p in
  match result with
  | Rejected _ => failure p
  | Fulfilled r =>
      match error r with
      | Some _ => failure p
      | None => setBrands (match data r with Some bs => bs | None => [] end) p
      end
  end.

Section Handlers.

(** [s.trim()] *)
Variable trim : string -> string.

(** The successive readings of the wall clock, in milliseconds. *)
Variable now : nat -> Z.

(** [Date.now()] *)
Definition Date_now : JS.Clocked Z := fun k => (now k, S k).

(** [!s.trim()] *)
Definition blank (s : string) : bool := negb (JS.truthy (Some (trim s))).

(** The [try] block of [submitFeedback], given what the webhook call settles
    to.  No other handler runs while the call is awaited. *)
Definition submitFeedback_try (call : Settled Generation) (p : Page)
  : JS.Clocked (Completion * Page) :=
  t <- Date_now ;;
  let feedbackMessage :=
    {| id := "feedback-" ++ Number_toString t; type := user;
       content := feedbackText p; isError := None; feedbackId := None |} in
  let p := appendMessage feedbackMessage p in
  let p := setFeedbackText EmptyString p in
  match call with
  | Rejected r => JS.ret (Thrown r, p)
  | Fulfilled call =>
      if negb (ok (response call))
      then JS.ret (Thrown "HTTP error!", p)
      else
        match json call with
        | Rejected r => JS.ret (Thrown r, p)
        | Fulfilled data =>
            t' <- Date_now ;;
            let assistantMessage :=
              {| id := "assistant-" ++ Number_toString t'; type := assistant;
                 content := email_draft_result data;
                 isError := None; feedbackId := None |} in
            JS.ret (Normal, appendMessage assistantMessage p)
        end
  end.

(** [submitFeedback] *)
Definition submitFeedback (call : Settled Generation) (p : Page)
  : JS.Clocked Page :=
  if blank (feedbackText p)
     || match draft (state p) with Some _ => false | None => true end
  then JS.ret p
  else
    let p := on_state (setLoading true) p in
    r <- submitFeedback_try call p ;;
    let p :=
      match fst r with
      | Normal => snd r
      | Thrown _ =>
          on_state (toast {| title := "Error submitting feedback";
                             description := "Please try again.";
                             destructive := true |}) (snd r)
      end in
    JS.ret (on_state (setLoading false) p).



End Handlers.

End ChatPage.

(** ** More rows used to run the code *)

Module Samples.

Import Chat ChatPage Examples.




Definition f_before : Feedback :=
  mkFeedback "f5" "first idea" true "2024-03-01T09:00:00.000Z".

Definition f_unparsed : Feedback :=
  mkFeedback "f6" "no date" true "yesterday".



Definition generated : Generation :=
  {| response := {| ok := true |};
     json := Fulfilled {| email_draft_result := "Draft C"; draft_id := "d1" |} |}.

Definition refused : Generation :=
  {| response := {| ok := false |};
     json := Rejected "Unexpected end of JSON input" |}.

End Samples.

(** ** The feedbacks page *)

(** A JavaScript object used as a map from strings to values: its own
    properties in insertion order, which is the order of [Object.entries]
    for keys that are not array indices. *)
Module JSObject.

Definition Obj (V : Type) : Type := list (string * V).

(** [o[key]] on own properties. *)
Fixpoint get {V : Type} (o : Obj V) (key : string) : option V :=
  match o with
  | [] => None
  | (k, v) :: o' => if (k =? key)%string then Some v else get o' key
  end.

(** [o[key] = v]: an existing property keeps its place, a new one goes
    last. *)
Fixpoint set {V : Type} (o : Obj V) (key : string) (v : V) : Obj V :=
  match o with
  | [] => [(key, v)]
  | (k, v') :: o' =>
      if (k =? key)%string then (k, v) :: o' else (k, v') :: set o' key v
  end.

End JSObject.

Module FeedbacksPage.

(** [interface Feedback] of the feedbacks page, with [drafts.id],
    [drafts.email_type] and [drafts.brands.name] as fields. *)
Record Feedback : Type := mkFeedback {
  id : string;
  feedback_text : string;
  is_valid : bool;
  created_at : string;
  drafts_id : string;
  drafts_email_type : string;
  drafts_brands_name : string
}.

(** ['all' | 'valid' | 'invalid'] *)
Inductive Filter : Type := all | valid | invalid.

Record State : Type := mkState {
  feedbacks : list Feedback;
  loading : bool;
  filter : Filter;
  toasts : list Chat.Toast
}.

Definition setFeedbacks (fs : list Feedback) (st : State) : State :=
  {| feedbacks := fs; loading := loading st; filter := filter st;
     toasts := toasts st |}.

Definition setLoading (b : bool) (st : State) : State :=
  {| feedbacks := feedbacks st; loading := b; filter := filter st;
     toasts := toasts st |}.

Definition toast (t : Chat.Toast) (st : State) : State :=
  {| feedbacks := feedbacks st; loading := loading st; filter := filter st;
     toasts := JS.push (toasts st) t |}.

(** [fetchFeedbacks], given what the query settles to. *)
Definition fetchFeedbacks
  (result : Chat.Settled (Chat.QueryResult (list Feedback))) (st : State)
  : State :=
  let failure st :=
    toast {| Chat.title := "Error loading feedbacks";
             Chat.description := "Please try refreshing the page.";
             Chat.destructive := true |} st in
  let st :=
    match result with
    | Chat.Rejected _ => failure st
    | Chat.Fulfilled r =>
        match Chat.error r with
        | Some _ => failure st
        | None =>
            setFeedbacks
              (match Chat.data r with Some fs => fs | None => [] end) st
        end
    end in
  setLoading false st.

(** [deleteFeedback], given the answer to [confirm(...)] and what the delete
    query settles to. *)
Definition deleteFeedback (feedbackId : string) (confirmed : bool)
  (result : Chat.Settled (Chat.QueryResult unit)) (st : State) : State :=
  if negb confirmed then st
  else
    let failure st :=
      toast {| Chat.title := "Error deleting feedback";
               Chat.description := "Please try again.";
               Chat.destructive := true |} st in
    match result with
    | Chat.Rejected _ => failure st
    | Chat.Fulfilled r =>
        match Chat.error r with
        | Some _ => failure st
        | None =>
            let st :=
              toast {| Chat.title := "Feedback deleted";
                       Chat.description :=
                         "The feedback has been successfully deleted.";
                       Chat.destructive := false |} st in
            setFeedbacks
              (List.filter (fun f => negb (id f =? feedbackId)%string)
                           (feedbacks st))
              st
        end
    end.

(** [filteredFeedbacks] *)
Definition filteredFeedbacks (st : State) : list Feedback :=
  List.filter
    (fun feedback =>
       match filter st with
       | valid => is_valid feedback
       | invalid => negb (is_valid feedback)
       | all => true
       end)
    (feedbacks st).

(** The key of the group of a feedback: brand name, hyphen, email type. *)
Definition group_key (feedback : Feedback) : string :=
  drafts_brands_name feedback ++ "-" ++ drafts_email_type feedback.

(** The callback of the [reduce] of [groupedFeedbacks].  Every key holds a
    hyphen, so none is an array index or a property that an empty object
    inherits. *)
Definition group (acc : JSObject.Obj (list Feedback)) (feedback : Feedback)
  : JSObject.Obj (list Feedback) :=
  let key := group_key feedback in
  let acc :=
    match JSObject.get acc key with
    | Some _ => acc
    | None => JSObject.set acc key []
    end in
  match JSObject.get acc key with
  | Some members => JSObject.set acc key (JS.push members feedback)
  | None => acc
  end.

(** [groupedFeedbacks], as [Object.entries] lists it. *)
Definition groupedFeedbacks (st : State)
  : JSObject.Obj (list Feedback) :=
  fold_left group (filteredFeedbacks st) [].

(** The three numbers on the filter tabs. *)
Definition count_all (st : State) : nat := List.length (feedbacks st).

Definition count_valid (st : State) : nat :=
  List.length (List.filter (fun f => is_valid f) (feedbacks st)).

Definition count_invalid (st : State) : nat :=
  List.length (List.filter (fun f => negb (is_valid f)) (feedbacks st)).

(** The labels of [public.email_type]. *)
Definition email_types : list string :=
  ["product"; "sales"; "news"; "community"].

Definition has_hyphen (s : string) : bool :=
  existsb (fun c => (c =? "-")%char) (list_ascii_of_string s).

End FeedbacksPage.

Module FeedbackSamples.

Import FeedbacksPage.

Definition a1 : Feedback :=
  mkFeedback "a1" "too long" false "2024-03-02T10:00:00.000Z" "d1" "product"
             "Acme".
Definition a2 : Feedback :=
  mkFeedback "a2" "friendlier" true "2024-03-02T09:00:00.000Z" "d2" "sales"
             "Acme".
Definition a3 : Feedback :=
  mkFeedback "a3" "add a link" true "2024-03-01T10:00:00.000Z" "d1" "product"
             "Acme".

Definition listing : State :=
  {| feedbacks := [a1; a2; a3]; loading := false; filter := all;
     toasts := [] |}.

End FeedbackSamples.

(** ** The campaign edge function, whole *)

Module Edge.

(** A number of the request as far as a template reads it: whether it is
    truthy (neither 0 nor NaN) and the text it prints as. *)
Record Number : Type := mkNumber {
  nonzero : bool;
  digits : string
}.

Record BrandDetails : Type := mkBrandDetails {
  brand_name : string;
  brand_description : string
}.

Record ProductsDetails : Type := mkProductsDetails {
  name : option string;
  price : option Number;
  key_features : option (list string)
}.

Record SalesDetails : Type := mkSalesDetails {
  target_audience : option string;
  special_offer : option string
}.

Record NewsDetails : Type := mkNewsDetails {
  website_url : option string;
  keywords : option (list string)
}.

Record Community : Type := mkCommunity {
  community_topics : option string;
  key_highlights : option string
}.

(** [interface EmailGenerationRequest].  The scalar fields may be absent
    from the JSON body ([None]); the detail objects are present, as the
    interface declares them. *)
Record EmailGenerationRequest : Type := mkRequest {
  user_id : option string;
  brand_id : option string;
  draft_id : option string;
  email_type : option string;
  user_input : option string;
  brand_details : BrandDetails;
  products_details : ProductsDetails;
  sales_details : SalesDetails;
  news_details : NewsDetails;
  community : Community;
  feedback_text : option string
}.

(** The fields the model of the feedback write path reads. *)
Definition to_Campaign (request : EmailGenerationRequest)
  : Campaign.EmailGenerationRequest :=
  {| Campaign.user_id := user_id request;
     Campaign.draft_id := draft_id request;
     Campaign.user_input := user_input request;
     Campaign.feedback_text := feedback_text request |}.

(** *** The templates *)

Definition nl : string := String "010" EmptyString.

Definition quote : string := String "034" EmptyString.

(** The seven bytes before each key feature in the source file. *)
Definition bullet : string :=
  String (ascii_of_nat 195) (String (ascii_of_nat 162)
  (String (ascii_of_nat 226) (String (ascii_of_nat 130)
  (String (ascii_of_nat 172) (String (ascii_of_nat 194)
  (String (ascii_of_nat 162) EmptyString)))))).

(** A template literal line by line. *)
Definition lines (ls : list string) : string := String.concat nl ls.

(** [${x}] for a string that may be [undefined]. *)
Definition interpolate (x : option string) : string :=
  match x with
  | Some s => s
  | None => "undefined"
  end.

(** [x || fallback] *)
Definition or_else (x : option string) (fallback : string) : string :=
  match x with
  | Some s => if JS.truthy x then s else fallback
  | None => fallback
  end.

(** [cond ? text : ''] on a string that may be absent or empty. *)
Definition when_given (x : option string) (text : string -> string) : string :=
  match x with
  | Some s => if JS.truthy x then text s else EmptyString
  | None => EmptyString
  end.

(** [xs && xs.length > 0 ? text : ''] *)
Definition when_some (xs : option (list string))
  (text : list string -> string) : string :=
  match xs with
  | Some (x :: xs') => text (x :: xs')
  | _ => EmptyString
  end.

Definition about_brand (brand : BrandDetails) : string :=
  when_given (Some (brand_description brand))
             (fun description => nl ++ description ++ nl).

Definition signature (brand : BrandDetails) : string :=
  "The " ++ brand_name brand ++ " Team".

(** The template of each [case] of [generateEmailContent]. *)
Definition product_email (request : EmailGenerationRequest) : string :=
  let brand := brand_details request in
  let product := products_details request in
  lines
    [ "Subject: Introducing " ++ or_else (name product) "Our New Product"
        ++ " - " ++ brand_name brand;
      EmptyString;
      "Dear Valued Customer,";
      EmptyString;
      interpolate (user_input request);
      EmptyString;
      "We're excited to announce "
        ++ or_else (name product) "our latest product"
        ++ match price product with
           | Some n => if nonzero n then " for just $" ++ digits n
                       else EmptyString
           | None => EmptyString
           end
        ++ ".";
      EmptyString;
      when_some (key_features product)
        (fun features =>
           nl ++ "Key Features:" ++ nl
           ++ String.concat nl
                (map (fun feature => bullet ++ " " ++ feature) features)
           ++ nl);
      EmptyString;
      when_given (Some (brand_description brand))
        (fun description =>
           nl ++ "About " ++ brand_name brand ++ ":" ++ nl
           ++ description ++ nl);
      EmptyString;
      "Best regards,";
      signature brand ].

Definition sales_email (request : EmailGenerationRequest) : string :=
  let brand := brand_details request in
  let sales := sales_details request in
  lines
    [ "Subject: Special Offer for " ++ or_else (target_audience sales) "You"
        ++ " - " ++ brand_name brand;
      EmptyString;
      "Dear " ++ or_else (target_audience sales) "Valued Customer" ++ ",";
      EmptyString;
      interpolate (user_input request);
      EmptyString;
      when_given (special_offer sales)
        (fun offer => "Take advantage of our exclusive " ++ offer ++ "!");
      EmptyString;
      about_brand brand;
      EmptyString;
      "Don't miss out on this limited-time opportunity!";
      EmptyString;
      "Best regards,";
      signature brand ].

Definition news_email (request : EmailGenerationRequest) : string :=
  let brand := brand_details request in
  let news := news_details request in
  lines
    [ "Subject: Newsletter - " ++ brand_name brand;
      EmptyString;
      "Dear Subscriber,";
      EmptyString;
      interpolate (user_input request);
      EmptyString;
      when_some (keywords news)
        (fun words =>
           nl ++ "Topics covered: " ++ String.concat ", " words ++ nl);
      EmptyString;
      when_given (website_url news) (fun url => "Visit us at: " ++ url);
      EmptyString;
      about_brand brand;
      EmptyString;
      "Stay informed,";
      signature brand ].

Definition community_email (request : EmailGenerationRequest) : string :=
  let brand := brand_details request in
  let community := community request in
  lines
    [ "Subject: " ++ or_else (community_topics community) "Community Update"
        ++ " - " ++ brand_name brand;
      EmptyString;
      "Dear Community Member,";
      EmptyString;
      interpolate (user_input request);
      EmptyString;
      when_given (key_highlights community)
        (fun highlights => nl ++ "Highlights:" ++ nl ++ highlights ++ nl);
      EmptyString;
      about_brand brand;
      EmptyString;
      "Together we grow,";
      signature brand ].

Definition default_email (request : EmailGenerationRequest) : string :=
  let brand := brand_details request in
  lines
    [ "Subject: Update from " ++ brand_name brand;
      EmptyString;
      "Dear Customer,";
      EmptyString;
      interpolate (user_input request);
      EmptyString;
      about_brand brand;
      EmptyString;
      "Best regards,";
      signature brand ].

(** [generateEmailContent]: the [switch] on [email_type]. *)
Definition generateEmailContent (request : EmailGenerationRequest) : string :=
  let case label :=
    match email_type request with
    | Some t => (t =? label)%string
    | None => false
    end in
  if case "product" then product_email request
  else if case "sales" then sales_email request
  else if case "news" then news_email request
  else if case "community" then community_email request
  else default_email request.

(** [generateRevisedEmailContent] *)
Definition generateRevisedEmailContent (request : EmailGenerationRequest)
  : string :=
  let baseContent := generateEmailContent request in
  lines
    [ baseContent;
      EmptyString;
      "---";
      "Revised based on your feedback: " ++ quote
        ++ interpolate (feedback_text request) ++ quote;
      "---" ].

(** *** The tables *)

(** The [product_info] the handler stores with a draft. *)
Record ProductInfo : Type := mkProductInfo {
  info_products_details : ProductsDetails;
  info_sales_details : SalesDetails;
  info_news_details : NewsDetails;
  info_community : Community
}.

(** A row of [public.drafts]. *)
Record drafts : Type := mk_drafts {
  d_id : string;
  d_user_id : string;
  d_brand_id : string;
  d_email_type : string;
  d_product_info : option ProductInfo;
  d_user_input : string;
  d_current_version : Z;
  d_created_at : string;
  d_updated_at : string
}.

(** A row of [public.draft_versions]. *)
Record draft_versions : Type := mk_draft_versions {
  v_id : string;
  v_draft_id : string;
  v_version : Z;
  v_content : string;
  v_created_at : string
}.

Record Database : Type := mkDatabase {
  drafts_table : list drafts;
  draft_versions_table : list draft_versions;
  email_feedbacks_table : list Schema.email_feedbacks
}.

(** The checks of the database that lie outside the column definitions
    (foreign keys, row-level security): which rows an insert may add, which
    drafts a select shows and an update reaches. *)
Record Checks : Type := mkChecks {
  accepts_draft : drafts -> bool;
  accepts_version : draft_versions -> bool;
  accepts_feedback : Schema.email_feedbacks -> bool;
  shows_draft : drafts -> bool;
  reaches_draft : drafts -> bool
}.

(** What the storage client reports in [error]. *)
Inductive DbError : Type :=
| not_null_violation
| invalid_enum_label
| refused
| not_a_single_row.

(** The labels of [public.email_type]. *)
Definition email_type_labels : list string :=
  ["product"; "sales"; "news"; "community"].

Definition is_label (s : string) : bool :=
  existsb (fun label => (label =? s)%string) email_type_labels.

(** The draft the handler inserts, as the table completes it: [id],
    [created_at] and [updated_at] by their defaults; [user_id], [brand_id],
    [email_type] and [user_input] are [NOT NULL] without a default, and
    [email_type] must be a label of the enum. *)
Definition new_draft (gen_random_uuid now : string)
  (request : EmailGenerationRequest) : DbError + drafts :=
  match user_id request, brand_id request, email_type request,
        user_input request with
  | Some u, Some b, Some t, Some i =>
      if is_label t
      then inr {| d_id := gen_random_uuid; d_user_id := u; d_brand_id := b;
                  d_email_type := t;
                  d_product_info :=
                    Some {| info_products_details := products_details request;
                            info_sales_details := sales_details request;
                            info_news_details := news_details request;
                            info_community := community request |};
                  d_user_input := i; d_current_version := 1;
                  d_created_at := now; d_updated_at := now |}
      else inl invalid_enum_label
  | _, _, _, _ => inl not_null_violation
  end.

(** [.from('drafts').select('current_version').eq('id', draftId).single()] *)
Definition current_version_of (checks : Checks) (draftId : string)
  (db : Database) : DbError + Z :=
  match List.filter (fun row => (d_id row =? draftId)%string
                                && shows_draft checks row)
                    (drafts_table db) with
  | [row] => inr (d_current_version row)
  | _ => inl not_a_single_row
  end.

(** [.from('drafts').update({ current_version }).eq('id', draftId)], with the
    trigger that stamps [updated_at]. *)
Definition set_current_version (checks : Checks) (draftId : string)
  (newVersion : Z) (now : string) (db : Database) : Database :=
  {| drafts_table :=
       map (fun row =>
              if (d_id row =? draftId)%string && reaches_draft checks row
              then {| d_id := d_id row; d_user_id := d_user_id row;
                      d_brand_id := d_brand_id row;
                      d_email_type := d_email_type row;
                      d_product_info := d_product_info row;
                      d_user_input := d_user_input row;
                      d_current_version := newVersion;
                      d_created_at := d_created_at row;
                      d_updated_at := now |}
              else row)
           (drafts_table db);
     draft_versions_table := draft_versions_table db;
     email_feedbacks_table := email_feedbacks_table db |}.

Definition add_draft (row : drafts) (db : Database) : Database :=
  {| drafts_table := JS.push (drafts_table db) row;
     draft_versions_table := draft_versions_table db;
     email_feedbacks_table := email_feedbacks_table db |}.

Definition add_version (row : draft_versions) (db : Database) : Database :=
  {| drafts_table := drafts_table db;
     draft_versions_table := JS.push (draft_versions_table db) row;
     email_feedbacks_table := email_feedbacks_table db |}.

Definition add_feedback (row : Schema.email_feedbacks) (db : Database)
  : Database :=
  {| drafts_table := drafts_table db;
     draft_versions_table := draft_versions_table db;
     email_feedbacks_table := JS.push (email_feedbacks_table db) row |}.

(** *** The handler *)

(** The body of a response. *)
Inductive Body : Type :=
| no_body
| generated (draft_id : string) (email_draft_result : string)
| failed_with (error : string + DbError).

Record Response : Type := mkResponse {
  status : Z;
  body : Body
}.

(** What the database generates during a call: the identifiers of the rows
    to come and the time. *)
Record Fresh : Type := mkFresh {
  draft_uuid : string;
  draft_now : string;
  version_uuid : string;
  version_now : string;
  feedback_uuid : string;
  feedback_now : string;
  update_now : string
}.

(** The [try] block of the handler: the draft identifier and the content to
    answer with, or what was thrown; with the database as the writes done so
    far leave it. *)
Definition handler_try (checks : Checks) (fresh : Fresh)
  (json : Chat.Settled EmailGenerationRequest) (db : Database)
  : ((string + DbError) + string * string) * Database :=
  match json with
  | Chat.Rejected reason => (inl (inl reason), db)
  | Chat.Fulfilled request =>
      if Campaign.isNewDraft (to_Campaign request)
      then
        let emailContent := generateEmailContent request in
        match new_draft (draft_uuid fresh) (draft_now fresh) request with
        | inl e => (inl (inr e), db)
        | inr draft =>
            if negb (accepts_draft checks draft)
            then (inl (inr refused), db)
            else
              let db := add_draft draft db in
              let draftId := d_id draft in
              let version :=
                {| v_id := version_uuid fresh; v_draft_id := draftId;
                   v_version := 1; v_content := emailContent;
                   v_created_at := version_now fresh |} in
              if negb (accepts_version checks version)
              then (inl (inr refused), db)
              else (inr (draftId, emailContent), add_version version db)
        end
      else
        let draftId := interpolate (draft_id request) in
        match current_version_of checks draftId db with
        | inl e => (inl (inr e), db)
        | inr current_version =>
            let newVersion := current_version + 1 in
            match Schema.new_row (feedback_uuid fresh) (feedback_now fresh)
                    (Campaign.feedback_values (to_Campaign request)) with
            | None => (inl (inr not_null_violation), db)
            | Some feedback =>
                if negb (accepts_feedback checks feedback)
                then (inl (inr refused), db)
                else
                  let db := add_feedback feedback db in
                  let emailContent := generateRevisedEmailContent request in
                  let version :=
                    {| v_id := version_uuid fresh; v_draft_id := draftId;
                       v_version := newVersion; v_content := emailContent;
                       v_created_at := version_now fresh |} in
                  if negb (accepts_version checks version)
                  then (inl (inr refused), db)
                  else
                    let db := add_version version db in
                    (inr (draftId, emailContent),
                     set_current_version checks draftId newVersion
                       (update_now fresh) db)
            end
        end
  end.

(** [handler]: [method] is [req.method], [json] what [req.json()] settles
    to. *)
Definition handler (checks : Checks) (fresh : Fresh) (method : string)
  (json : Chat.Settled EmailGenerationRequest) (db : Database)
  : Response * Database :=
  if (method =? "OPTIONS")%string
  then ({| status := 200; body := no_body |}, db)
  else
    match handler_try checks fresh json db with
    | (inr (draftId, emailContent), db) =>
        ({| status := 200; body := generated draftId emailContent |}, db)
    | (inl error, db) =>
        ({| status := 500; body := failed_with error |}, db)
    end.

(** A sequence of calls, each with what the database generates for it. *)
Definition serve (checks : Checks)
  (calls : list (Fresh * string * Chat.Settled EmailGenerationRequest))
  (db : Database) : Database :=
  fold_left
    (fun db call =>
       match call with
       | (fresh, method, json) => snd (handler checks fresh method json db)
       end)
    calls db.

End Edge.

Module EdgeSamples.

Import Edge.

Definition launch : EmailGenerationRequest :=
  {| user_id := Some "u1"; brand_id := Some "b1"; draft_id := Some EmptyString;
     email_type := Some "product"; user_input := Some "Write a launch email";
     brand_details := {| brand_name := "Acme";
                         brand_description := "Tools that last" |};
     products_details := {| name := Some "Anvil";
                            price := Some {| nonzero := true; digits := "19.99" |};
                            key_features := Some ["Heavy"; "Solid"] |};
     sales_details := {| target_audience := None; special_offer := None |};
     news_details := {| website_url := None; keywords := None |};
     community := {| community_topics := None; key_highlights := None |};
     feedback_text := None |}.

Definition shorter : EmailGenerationRequest :=
  {| user_id := Some "u1"; brand_id := Some "b1"; draft_id := Some "d1";
     email_type := Some "product"; user_input := Some "Write a launch email";
     brand_details := brand_details launch;
     products_details := products_details launch;
     sales_details := sales_details launch;
     news_details := news_details launch;
     community := community launch;
     feedback_text := Some "make it shorter" |}.

Definition open_door : Checks :=
  {| accepts_draft := fun _ => true; accepts_version := fun _ => true;
     accepts_feedback := fun _ => true; shows_draft := fun _ => true;
     reaches_draft := fun _ => true |}.

Definition empty : Database :=
  {| drafts_table := []; draft_versions_table := [];
     email_feedbacks_table := [] |}.

Definition launched : drafts :=
  {| d_id := "d1"; d_user_id := "u1"; d_brand_id := "b1";
     d_email_type := "product";
     d_product_info :=
       Some {| info_products_details := products_details launch;
               info_sales_details := sales_details launch;
               info_news_details := news_details launch;
               info_community := community launch |};
     d_user_input := "Write a launch email"; d_current_version := 1;
     d_created_at := "2024-03-01T10:00:00.000Z";
     d_updated_at := "2024-03-01T10:00:00.000Z" |}.

Definition first_version : draft_versions :=
  {| v_id := "v1"; v_draft_id := "d1"; v_version := 1;
     v_content := generateEmailContent launch;
     v_created_at := "2024-03-01T10:00:00.100Z" |}.

Definition after_launch : Database :=
  {| drafts_table := [launched]; draft_versions_table := [first_version];
     email_feedbacks_table := [] |}.

Definition first : Fresh :=
  {| draft_uuid := "d1"; draft_now := "2024-03-01T10:00:00.000Z";
     version_uuid := "v1"; version_now := "2024-03-01T10:00:00.100Z";
     feedback_uuid := "f1"; feedback_now := "2024-03-01T10:00:00.050Z";
     update_now := "2024-03-01T10:00:00.200Z" |}.

Definition second : Fresh :=
  {| draft_uuid := "d2"; draft_now := "2024-03-01T10:05:00.000Z";
     version_uuid := "v2"; version_now := "2024-03-01T10:05:00.100Z";
     feedback_uuid := "f2"; feedback_now := "2024-03-01T10:05:00.050Z";
     update_now := "2024-03-01T10:05:00.200Z" |}.

End EdgeSamples.

(** ** The sidebar: deleting a draft *)

Module Sidebar.

(** [interface Draft] of the sidebar, with [brands.name] as a field. *)
Record Draft : Type := mkDraft {
  id : string;
  user_input : string;
  email_type : string;
  created_at : string;
  brands_name : string
}.

(** The state of the sidebar the handler writes, with the notifications
    shown and the route last navigated to. *)
Record State : Type := mkState {
  drafts : list Draft;
  loading : bool;
  deletingDraftId : option string;
  toasts : list Chat.Toast;
  location : string
}.

Definition setDrafts (ds : list Draft) (st : State) : State :=
  {| drafts := ds; loading := loading st;
     deletingDraftId := deletingDraftId st; toasts := toasts st;
     location := location st |}.

Definition setDeletingDraftId (d : option string) (st : State) : State :=
  {| drafts := drafts st; loading := loading st; deletingDraftId := d;
     toasts := toasts st; location := location st |}.

Definition toast (t : Chat.Toast) (st : State) : State :=
  {| drafts := drafts st; loading := loading st;
     deletingDraftId := deletingDraftId st;
     toasts := JS.push (toasts st) t; location := location st |}.

Definition navigate (path : string) (st : State) : State :=
  {| drafts := drafts st; loading := loading st;
     deletingDraftId := deletingDraftId st; toasts := toasts st;
     location := path |}.

(** A delete query failed: a rejection carries the message of its [Error];
    an [error] in the result makes the handler throw the message given
    for that stage. *)
Definition stage_failure (stage_message : string)
  (result : Chat.Settled (Chat.QueryResult unit)) : option string :=
  match result with
  | Chat.Rejected message => Some message
  | Chat.Fulfilled r =>
      match Chat.error r with
      | Some _ => Some stage_message
      | None => None
      end
  end.

(** The [try] block of [handleDeleteDraft], given what the three delete
    queries would settle to: the tables a delete was sent for, in order, and
    how the block ends. *)
Definition handleDeleteDraft_try (draft_id : option string) (draftId : string)
  (versions feedback draft : Chat.Settled (Chat.QueryResult unit))
  (st : State) : list string * Chat.Completion * State :=
  match stage_failure "Failed to delete draft versions" versions with
  | Some message => (["draft_versions"], Chat.Thrown message, st)
  | None =>
      match stage_failure "Failed to delete draft feedback" feedback with
      | Some message =>
          (["draft_versions"; "email_feedbacks"], Chat.Thrown message, st)
      | None =>
          match stage_failure "Failed to delete draft" draft with
          | Some message =>
              (["draft_versions"; "email_feedbacks"; "drafts"],
               Chat.Thrown message, st)
          | None =>
              let st :=
                setDrafts
                  (List.filter (fun d => negb (id d =? draftId)%string)
                               (drafts st)) st in
              let st :=
                match draft_id with
                | Some current =>
                    if (current =? draftId)%string
                    then navigate "/chat/new" st else st
                | None => st
                end in
              let st :=
                toast {| Chat.title := "Draft deleted";
                         Chat.description :=
                           "The draft and all its versions have been deleted successfully.";
                         Chat.destructive := false |} st in
              (["draft_versions"; "email_feedbacks"; "drafts"],
               Chat.Normal, st)
          end
      end
  end.

(** [handleDeleteDraft]: [draft_id] is the route parameter, [draftId] the
    draft to delete. *)
Definition handleDeleteDraft (draft_id : option string) (draftId : string)
  (versions feedback draft : Chat.Settled (Chat.QueryResult unit))
  (st : State) : list string * State :=
  let st := setDeletingDraftId (Some draftId) st in
  match handleDeleteDraft_try draft_id draftId versions feedback draft st with
  | (sent, completion, st) =>
      let st :=
        match completion with
        | Chat.Normal => st
        | Chat.Thrown message =>
            toast {| Chat.title := "Error deleting draft";
                     Chat.description := message;
                     Chat.destructive := true |} st
        end in
      (sent, setDeletingDraftId None st)
  end.

End Sidebar.

Module SidebarSamples.

Import Sidebar.

Definition listed : State :=
  {| drafts := [mkDraft "d2" "Spring sale" "sales"
                  "2024-03-02T09:00:00.000Z" "Acme";
                mkDraft "d1" "Write a launch email" "product"
                  "2024-03-01T10:00:00.000Z" "Acme"];
     loading := false; deletingDraftId := None; toasts := [];
     location := "/chat/d1" |}.

Definition done : Chat.Settled (Chat.QueryResult unit) :=
  Chat.Fulfilled {| Chat.data := None; Chat.error := None |}.

Definition denied : Chat.Settled (Chat.QueryResult unit) :=
  Chat.Fulfilled {| Chat.data := None; Chat.error := Some "permission denied" |}.

End SidebarSamples.

(** ** Facts about the JavaScript fragment *)

Open Scope list_scope.

Section ClockedFacts.

Context {A : Type}.

Lemma selected_In (p : A -> JS.Clocked bool) (xs : list A) (k : nat) (x : A) :
  In x (fst (JS.filter p xs k)) ->
  In x xs /\ exists k', fst (p x k') = true.
Proof.
  revert k. induction xs as [|y ys IH]; intros k; simpl.
  - intros [].
  - unfold JS.bind, JS.ret.
    destruct (p y k) as [keep k1] eqn:Hp.
    destruct (JS.filter p ys k1) as [rest k2] eqn:Hf.
    assert (IH' := IH k1). rewrite Hf in IH'. simpl in *.
    destruct keep; simpl.
    + intros [<- | Hin].
      * split; [now left|]. exists k. now rewrite Hp.
      * destruct (IH' Hin) as [H1 H2]. split; [now right | exact H2].
    + intros Hin. destruct (IH' Hin) as [H1 H2]. split; [now right | exact H2].
Qed.

Lemma selected_complete (p : A -> JS.Clocked bool) (xs : list A) (k : nat) (x : A) :
  In x xs -> (forall k', fst (p x k') = true) ->
  In x (fst (JS.filter p xs k)).
Proof.
  intros Hin Hp. revert k. induction xs as [|y ys IH]; intros k; simpl.
  - destruct Hin.
  - unfold JS.bind, JS.ret.
    destruct (p y k) as [keep k1] eqn:Hpy.
    destruct (JS.filter p ys k1) as [rest k2] eqn:Hf.
    destruct Hin as [-> | Hin].
    + specialize (Hp k). rewrite Hpy in Hp. simpl in Hp. subst keep.
      now left.
    + specialize (IH Hin k1). rewrite Hf in IH. simpl in IH.
      destruct keep; simpl; auto.
Qed.

Lemma filter_subseq (p : A -> JS.Clocked bool) (xs : list A) (k : nat) :
  Transcript.subseq (fst (JS.filter p xs k)) xs.
Proof.
  revert k. induction xs as [|y ys IH]; intros k; simpl.
  - constructor.
  - unfold JS.bind, JS.ret.
    destruct (p y k) as [keep k1].
    specialize (IH k1).
    destruct (JS.filter p ys k1) as [rest k2]. simpl in *.
    destruct keep; now constructor.
Qed.

(** Two callbacks that agree on the elements of the list, whatever the
    readings, select the same elements. *)
Lemma filter_agree (p q : A -> JS.Clocked bool) (xs : list A) (k k' : nat) :
  (forall x i j, In x xs -> fst (p x i) = fst (q x j)) ->
  fst (JS.filter p xs k) = fst (JS.filter q xs k').
Proof.
  revert k k'. induction xs as [|y ys IH]; intros k k' H; simpl.
  - reflexivity.
  - unfold JS.bind, JS.ret.
    assert (Hy := H y k k' (or_introl eq_refl)).
    destruct (p y k) as [b1 k1]. destruct (q y k') as [b2 k2].
    simpl in Hy. subst b2.
    assert (IH' := IH k1 k2 (fun x i j Hx => H x i j (or_intror Hx))).
    destruct (JS.filter p ys k1) as [r1 k3].
    destruct (JS.filter q ys k2) as [r2 k4].
    simpl in *. subst r2. now destruct b1.
Qed.

Lemma filter_nil (p : A -> JS.Clocked bool) (k : nat) :
  JS.filter p [] k = ([], k).
Proof. reflexivity. Qed.

Lemma subseq_In (l1 l2 : list A) (x : A) :
  Transcript.subseq l1 l2 -> In x l1 -> In x l2.
Proof.
  induction 1; simpl; intuition.
Qed.

Lemma subseq_StronglySorted (R : A -> A -> Prop) (l1 l2 : list A) :
  Transcript.subseq l1 l2 -> StronglySorted R l2 -> StronglySorted R l1.
Proof.
  induction 1 as [|x l1 l2 Hs IH|x l1 l2 Hs IH]; intros Hsorted.
  - constructor.
  - inversion Hsorted; subst. auto.
  - inversion Hsorted as [|? ? Hl2 Hall]; subst.
    constructor; [auto|].
    rewrite Forall_forall in *. intros y Hy.
    apply Hall. eapply subseq_In; eauto.
Qed.

Lemma subseq_filter (q : A -> bool) (xs : list A) :
  Transcript.subseq (List.filter q xs) xs.
Proof.
  induction xs as [|y ys IH]; simpl; [constructor|].
  destruct (q y); now constructor.
Qed.

End ClockedFacts.

Lemma lt_irrefl (a : JS.Date) : JS.lt a a = false.
Proof. destruct a; simpl; [apply Z.ltb_irrefl | reflexivity]. Qed.

Lemma gt_lt (a b : JS.Date) : JS.gt a b = JS.lt b a.
Proof. destruct a, b; reflexivity. Qed.

Lemma lt_trans (a b c : JS.Date) :
  JS.lt a b = true -> JS.lt b c = true -> JS.lt a c = true.
Proof.
  destruct a, b, c; simpl; try discriminate.
  rewrite !Z.ltb_lt. lia.
Qed.

Lemma lt_asym (a b : JS.Date) : JS.lt a b = true -> JS.lt b a = false.
Proof.
  destruct a, b; simpl; try discriminate.
  rewrite Z.ltb_lt, Z.ltb_ge. lia.
Qed.

Lemma lt_valid (a b : JS.Date) :
  JS.lt a b = true -> exists x y, a = Some x /\ b = Some y /\ x < y.
Proof.
  destruct a as [x|], b as [y|]; simpl; try discriminate.
  rewrite Z.ltb_lt. eauto.
Qed.

Lemma truthy_Some (s : string) :
  JS.truthy (Some s) = negb (s =? EmptyString)%string.
Proof. reflexivity. Qed.

(** ** The message history as a list of segments *)

Section BuilderFacts.

Import Chat Transcript.

Variable Date_parse : string -> JS.Date.
Variable now : nat -> Z.

Local Abbreviation window := (Transcript.window Date_parse now).
Local Abbreviation segments := (Transcript.segments Date_parse now).
Local Abbreviation build := (Chat.buildMessageHistory Date_parse now).
Local Abbreviation vdate := (Transcript.version_date Date_parse).
Local Abbreviation fdate := (Transcript.feedback_date Date_parse).

Lemma fold_left_push {A B : Type} (g : A -> B) (sel : list A) (acc : list B) :
  fold_left (fun history x => JS.push history (g x)) sel acc = acc ++ map g sel.
Proof.
  revert acc. induction sel as [|x sel IH]; intros acc; simpl.
  - now rewrite app_nil_r.
  - rewrite IH. unfold JS.push. now rewrite <- app_assoc.
Qed.

Lemma interleave_run versions feedbacks mh v index k :
  interleave Date_parse now versions feedbacks mh v index k =
  (mh ++ version_message v
      :: map feedback_message (fst (window versions feedbacks index v k)),
   snd (window versions feedbacks index v k)).
Proof.
  unfold interleave, Transcript.window, JS.bind, JS.ret.
  destruct (JS.filter _ feedbacks k) as [sel k1]. simpl.
  rewrite fold_left_push. unfold JS.push. now rewrite <- app_assoc.
Qed.

Lemma forEach_segments versions feedbacks vs index mh k :
  JS.forEach_from index (interleave Date_parse now versions feedbacks) vs mh k =
  (mh ++ fst (segments versions feedbacks index vs k),
   snd (segments versions feedbacks index vs k)).
Proof.
  revert index mh k. induction vs as [|v vs IH]; intros index mh k; simpl.
  - unfold JS.ret. simpl. now rewrite app_nil_r.
  - unfold JS.bind at 1. rewrite interleave_run. rewrite IH.
    unfold JS.bind, JS.ret.
    destruct (window versions feedbacks index v k) as [sel k1]. simpl.
    destruct (segments versions feedbacks (S index) vs k1) as [tl k2]. simpl.
    now rewrite <- app_assoc.
Qed.

Lemma build_segments user_input versions feedbacks k :
  fst (build user_input versions feedbacks k) =
  initial_message user_input :: fst (segments versions feedbacks 0 versions k).
Proof.
  unfold buildMessageHistory, JS.forEach. now rewrite forEach_segments.
Qed.

(** The test of a window that the next version closes reads no clock. *)
Lemma relevant_closed v s f k :
  JS.truthy (Some s) = true ->
  relevant Date_parse now v (Some s) f k =
  (JS.gt (fdate f) (vdate v) && JS.lt (fdate f) (Date_parse s), k).
Proof.
  intros Ht. unfold relevant, new_Date, JS.bind, JS.ret. now rewrite Ht.
Qed.

(** The test of a window left open reads the clock once. *)
Lemma relevant_open v next f k :
  JS.truthy next = false ->
  relevant Date_parse now v next f k =
  (JS.gt (fdate f) (vdate v) && JS.lt (fdate f) (Some (now k)), S k).
Proof.
  intros Ht. unfold relevant, new_Date, new_Date_now, JS.bind, JS.ret.
  destruct next as [s|]; [now rewrite Ht | reflexivity].
Qed.

(** A selected feedback is later than the version of its window. *)
Lemma relevant_after v next f k :
  fst (relevant Date_parse now v next f k) = true ->
  JS.lt (vdate v) (fdate f) = true.
Proof.
  destruct (JS.truthy next) eqn:Ht.
  - destruct next as [s|]; [|discriminate].
    rewrite relevant_closed by exact Ht. simpl.
    rewrite gt_lt. now intros [H _]%andb_true_iff.
  - rewrite relevant_open by exact Ht. simpl.
    rewrite gt_lt. now intros [H _]%andb_true_iff.
Qed.

Lemma assistants_app ms ms' :
  assistants (ms ++ ms') = (assistants ms + assistants ms')%nat.
Proof.
  unfold assistants. now rewrite filter_app, length_app.
Qed.

Lemma assistants_feedbacks sel : assistants (map feedback_message sel) = 0%nat.
Proof.
  unfold assistants. induction sel as [|f sel IH]; simpl; auto.
Qed.

Lemma segments_assistants versions feedbacks index vs k :
  assistants (fst (segments versions feedbacks index vs k)) = List.length vs.
Proof.
  revert index k. induction vs as [|v vs IH]; intros index k; simpl.
  - reflexivity.
  - unfold JS.bind, JS.ret.
    destruct (window versions feedbacks index v k) as [sel k1].
    specialize (IH (S index) k1).
    destruct (segments versions feedbacks (S index) vs k1) as [tl k2].
    simpl in *.
    change (version_message v :: map feedback_message sel ++ tl)
      with ([version_message v] ++ map feedback_message sel ++ tl).
    rewrite !assistants_app, assistants_feedbacks, IH. reflexivity.
Qed.

(** The segment of the [i]-th of the versions still to be processed. *)
Lemma segments_split versions feedbacks vs : forall index k i v,
  nth_error vs i = Some v ->
  exists pre k1 k2,
    fst (segments versions feedbacks index vs k) =
      pre ++ version_message v
          :: map feedback_message
               (fst (window versions feedbacks (index + i) v k1))
          ++ fst (segments versions feedbacks (S (index + i))
                    (skipn (S i) vs) k2)
    /\ assistants pre = i.
Proof.
  induction vs as [|v0 vs IH]; intros index k i v Hnth.
  - destruct i; discriminate.
  - destruct i as [|i]; simpl in Hnth.
    + injection Hnth as ->. exists [], k. simpl.
      unfold JS.bind, JS.ret. rewrite Nat.add_0_r.
      destruct (window versions feedbacks index v k) as [sel k1].
      exists k1.
      destruct (segments versions feedbacks (S index) vs k1) as [tl k2].
      simpl. auto.
    + simpl. unfold JS.bind, JS.ret.
      destruct (window versions feedbacks index v0 k) as [sel k1].
      destruct (IH (S index) k1 i v Hnth) as (pre & k1' & k2' & Heq & Hpre).
      destruct (segments versions feedbacks (S index) vs k1) as [tl k2].
      simpl in *.
      exists (version_message v0 :: map feedback_message sel ++ pre), k1', k2'.
      split.
      * rewrite Heq. rewrite <- Nat.add_succ_comm. simpl.
        rewrite <- app_assoc. reflexivity.
      * change (version_message v0 :: map feedback_message sel ++ pre)
          with ([version_message v0] ++ map feedback_message sel ++ pre).
        rewrite !assistants_app, assistants_feedbacks, Hpre. reflexivity.
Qed.

End BuilderFacts.

(** ** The transcript: where the feedbacks go *)

Section TranscriptTheorems.

Import Chat Transcript.

Variable Date_parse : string -> JS.Date.
Variable now : nat -> Z.

(** [new Date] of the empty string is an Invalid Date. *)
Hypothesis Date_parse_empty : Date_parse EmptyString = None.

Local Abbreviation window := (Transcript.window Date_parse now).
Local Abbreviation segments := (Transcript.segments Date_parse now).
Local Abbreviation build := (Chat.buildMessageHistory Date_parse now).
Local Abbreviation vdate := (Transcript.version_date Date_parse).
Local Abbreviation fdate := (Transcript.feedback_date Date_parse).

Lemma truthy_of_valid (s : string) (t : Z) :
  Date_parse s = Some t -> JS.truthy (Some s) = true.
Proof.
  intros Hs. simpl. destruct (String.eqb_spec s EmptyString) as [->|]; [|reflexivity].
  congruence.
Qed.

Lemma skipn_from_nth {A : Type} (l : list A) : forall n x,
  nth_error l n = Some x -> skipn n l = x :: skipn (S n) l.
Proof.
  induction l as [|y l IH]; intros [|n] x H; try discriminate.
  - now injection H as ->.
  - simpl in H. apply IH in H. exact H.
Qed.

Lemma window_closed_In versions feedbacks index v v' f k :
  nth_error versions (index + 1) = Some v' ->
  In f feedbacks ->
  JS.lt (vdate v) (fdate f) = true ->
  JS.lt (fdate f) (vdate v') = true ->
  In f (fst (window versions feedbacks index v k)).
Proof.
  intros Hnext Hin Hlo Hhi. unfold Transcript.window. rewrite Hnext. simpl.
  apply selected_complete; [exact Hin|]. intros k'.
  destruct (lt_valid _ _ Hhi) as (x & y & _ & Hy & _).
  rewrite relevant_closed by (eapply truthy_of_valid; exact Hy).
  simpl. rewrite gt_lt. fold (vdate v) (vdate v') (fdate f).
  now rewrite Hlo, Hhi.
Qed.

Lemma window_open_In versions feedbacks index v f k :
  nth_error versions (index + 1) = None ->
  In f feedbacks ->
  JS.lt (vdate v) (fdate f) = true ->
  (forall n, JS.lt (fdate f) (Some (now n)) = true) ->
  In f (fst (window versions feedbacks index v k)).
Proof.
  intros Hnext Hin Hlo Hhi. unfold Transcript.window. rewrite Hnext. simpl.
  apply selected_complete; [exact Hin|]. intros k'.
  rewrite relevant_open by reflexivity.
  simpl. rewrite gt_lt. fold (vdate v) (fdate f).
  now rewrite Hlo, Hhi.
Qed.

Lemma segments_no_feedbacks versions index vs k :
  fst (segments versions [] index vs k) = map version_message vs.
Proof.
  revert index k. induction vs as [|v vs IH]; intros index k; simpl.
  - reflexivity.
  - unfold JS.bind, JS.ret, Transcript.window. rewrite filter_nil.
    specialize (IH (S index) k).
    destruct (segments versions [] (S index) vs k) as [tl k2].
    simpl in *. now rewrite IH.
Qed.

(** C1. For a feedback created strictly after the [i]-th version and
    strictly before the next one, the history reads: [i] earlier versions
    with what follows them, then the message of version [i], then feedback
    messages only, the one of this feedback among them, then the message of
    version [i+1]. *)
Theorem C1_feedback_between_versions
  user_input versions feedbacks k i v v' f :
  nth_error versions i = Some v ->
  nth_error versions (S i) = Some v' ->
  In f feedbacks ->
  JS.lt (vdate v) (fdate f) = true ->
  JS.lt (fdate f) (vdate v') = true ->
  exists pre sel post,
    fst (build user_input versions feedbacks k) =
      pre ++ version_message v
          :: map feedback_message sel ++ version_message v' :: post
    /\ assistants pre = i
    /\ In f sel
    /\ subseq sel feedbacks.
Proof.
  intros Hv Hv' Hin Hlo Hhi.
  rewrite build_segments.
  destruct (segments_split Date_parse now versions feedbacks versions 0 k i v Hv)
    as (pre & k1 & k2 & Heq & Hpre).
  rewrite (skipn_from_nth versions (S i) v' Hv') in Heq.
  cbn [Nat.add Transcript.segments] in Heq.
  unfold JS.bind, JS.ret in Heq.
  destruct (window versions feedbacks (S i) v' k2) as [sel' k3].
  destruct (segments versions feedbacks (S (S i)) _ k3) as [tl k4].
  simpl in Heq.
  exists (initial_message user_input :: pre),
         (fst (window versions feedbacks i v k1)),
         (map feedback_message sel' ++ tl).
  repeat split.
  - rewrite Heq. reflexivity.
  - exact Hpre.
  - apply window_closed_In with (v' := v'); auto.
    now rewrite Nat.add_1_r.
  - apply filter_subseq.
Qed.

(** C3, as the code has it. The feedbacks of a window are emitted in the
    order of the input list, so in ascending [created_at] when the list comes
    that way; each message has type user, error flag the negation of
    [is_valid], and the identifier of its feedback as back-reference. *)
Theorem C3_window_in_input_order user_input versions feedbacks k i v :
  nth_error versions i = Some v ->
  exists pre sel post,
    fst (build user_input versions feedbacks k) =
      pre ++ version_message v :: map feedback_message sel ++ post
    /\ assistants pre = i
    /\ match post with [] => True | m :: _ => type m = assistant end
    /\ subseq sel feedbacks
    /\ (by_created_at Date_parse feedbacks -> by_created_at Date_parse sel)
    /\ Forall (fun m => type m = user) (map feedback_message sel)
    /\ map isError (map feedback_message sel)
       = map (fun f => Some (negb (fb_is_valid f))) sel
    /\ map feedbackId (map feedback_message sel)
       = map (fun f => Some (fb_id f)) sel.
Proof.
  intros Hv.
  rewrite build_segments.
  destruct (segments_split Date_parse now versions feedbacks versions 0 k i v Hv)
    as (pre & k1 & k2 & Heq & Hpre).
  simpl in Heq.
  exists (initial_message user_input :: pre),
         (fst (window versions feedbacks i v k1)),
         (fst (segments versions feedbacks (S i) (skipn (S i) versions) k2)).
  split; [now rewrite Heq|]. split; [exact Hpre|].
  split.
  { destruct (skipn (S i) versions) as [|v' rest]; simpl; [exact I|].
    unfold JS.bind, JS.ret.
    destruct (window versions feedbacks (S i) v' k2) as [sel' k3].
    destruct (segments versions feedbacks (S (S i)) rest k3) as [tl k4].
    reflexivity. }
  split; [apply filter_subseq|].
  split.
  { unfold by_created_at. apply subseq_StronglySorted, filter_subseq. }
  split; [|split].
  - apply Forall_forall. intros m (f & <- & _)%in_map_iff. reflexivity.
  - rewrite map_map. reflexivity.
  - rewrite map_map. reflexivity.
Qed.


(** C7, as the code has it. With [N] versions and no feedback the history
    has [N+1] messages: the original request as a user message, then one
    assistant message for each version, in order; the types alternate only
    up to one version. *)
Theorem C7_history_without_feedbacks user_input versions k :
  let history := fst (build user_input versions [] k) in
  history = initial_message user_input :: map version_message versions
  /\ List.length history = S (List.length versions)
  /\ map type history = user :: repeat assistant (List.length versions)
  /\ (alternates user history = true <-> (List.length versions <= 1)%nat)
  /\ (versions = [] -> history = [initial_message user_input]).
Proof.
  simpl. rewrite build_segments, segments_no_feedbacks.
  split; [reflexivity|]. split; [simpl; now rewrite length_map|].
  split.
  { simpl. f_equal. induction versions as [|v vs IH]; simpl; congruence. }
  split.
  { destruct versions as [|v1 [|v2 vs]]; simpl.
    - split; [lia | reflexivity].
    - split; [lia | reflexivity].
    - split; [discriminate | lia]. }
  intros ->. reflexivity.
Qed.

End TranscriptTheorems.

(** ** The transcript and the wall clock *)

Section ClockIndependence.

Import Chat Transcript.

Variable Date_parse : string -> JS.Date.
Variables now1 now2 : nat -> Z.

Local Abbreviation fdate := (Transcript.feedback_date Date_parse).

Lemma relevant_agree v next f i j :
  JS.lt (fdate f) (Some (now1 i)) = JS.lt (fdate f) (Some (now2 j)) ->
  fst (relevant Date_parse now1 v next f i) =
  fst (relevant Date_parse now2 v next f j).
Proof.
  intros H. destruct (JS.truthy next) eqn:Ht.
  - destruct next as [s|]; [|discriminate].
    now rewrite !relevant_closed by exact Ht.
  - rewrite !relevant_open by exact Ht. simpl.
    fold (fdate f). now rewrite H.
Qed.

Lemma segments_agree versions feedbacks vs :
  (forall f i j, In f feedbacks ->
     JS.lt (fdate f) (Some (now1 i)) = JS.lt (fdate f) (Some (now2 j))) ->
  forall index k1 k2,
    fst (segments Date_parse now1 versions feedbacks index vs k1) =
    fst (segments Date_parse now2 versions feedbacks index vs k2).
Proof.
  intros H. induction vs as [|v vs IH]; intros index k1 k2; simpl.
  - reflexivity.
  - unfold JS.bind, JS.ret.
    assert (Hw : fst (window Date_parse now1 versions feedbacks index v k1) =
                 fst (window Date_parse now2 versions feedbacks index v k2)).
    { apply filter_agree. intros f i j Hf. apply relevant_agree. auto. }
    destruct (window Date_parse now1 versions feedbacks index v k1) as [s1 k1'].
    destruct (window Date_parse now2 versions feedbacks index v k2) as [s2 k2'].
    simpl in Hw. subst s2.
    specialize (IH (S index) k1' k2').
    destruct (segments Date_parse now1 versions feedbacks (S index) vs k1').
    destruct (segments Date_parse now2 versions feedbacks (S index) vs k2').
    simpl in *. now rewrite IH.
Qed.

(** C5, as the code has it. Two runs of the builder on the same request,
    versions and feedbacks give the same history whenever the readings of the
    wall clock in the two runs compare alike with the date of every feedback:
    so whenever every feedback is older than all the readings.  The clock is
    read to close the window of the last version. *)
Theorem C5_same_history_under_like_clocks
  user_input versions feedbacks k1 k2 :
  (forall f i j, In f feedbacks ->
     JS.lt (fdate f) (Some (now1 i)) = JS.lt (fdate f) (Some (now2 j))) ->
  fst (buildMessageHistory Date_parse now1 user_input versions feedbacks k1) =
  fst (buildMessageHistory Date_parse now2 user_input versions feedbacks k2).
Proof.
  intros H. rewrite !build_segments. f_equal. now apply segments_agree.
Qed.

End ClockIndependence.

(** ** Feedbacks on a boundary, and the number of windows of a feedback *)

Section WindowTheorems.

Import Chat Transcript.

Variable Date_parse : string -> JS.Date.
Variable now : nat -> Z.
Hypothesis Date_parse_empty : Date_parse EmptyString = None.

Local Abbreviation window := (Transcript.window Date_parse now).
Local Abbreviation segments := (Transcript.segments Date_parse now).
Local Abbreviation build := (Chat.buildMessageHistory Date_parse now).
Local Abbreviation vdate := (Transcript.version_date Date_parse).
Local Abbreviation fdate := (Transcript.feedback_date Date_parse).
Local Abbreviation next_date versions index :=
  (option_map dv_created_at (nth_error versions (index + 1))).

Lemma StronglySorted_nth {A : Type} (R : A -> A -> Prop) (l : list A) :
  StronglySorted R l ->
  forall i j a b, (i < j)%nat ->
    nth_error l i = Some a -> nth_error l j = Some b -> R a b.
Proof.
  induction 1 as [|x l Hs IH Hall]; intros i j a b Hij Ha Hb.
  - destruct i; discriminate.
  - destruct j as [|j]; [lia|]. simpl in Hb.
    destruct i as [|i]; simpl in Ha.
    + injection Ha as <-. rewrite Forall_forall in Hall.
      apply Hall. eapply nth_error_In; eauto.
    + apply (IH i j); auto. lia.
Qed.

(** Where a message with a back-reference comes from. *)
Lemma segments_origin versions feedbacks vs m x : forall index k,
  In m (fst (segments versions feedbacks index vs k)) ->
  feedbackId m = Some x ->
  exists i v g k',
    nth_error vs i = Some v /\ In g feedbacks /\ fb_id g = x
    /\ fst (relevant Date_parse now v (next_date versions (index + i)) g k')
       = true.
Proof.
  induction vs as [|v vs IH]; intros index k; simpl.
  - intros [].
  - unfold JS.bind, JS.ret.
    destruct (window versions feedbacks index v k) as [sel k1] eqn:Hw.
    specialize (IH (S index) k1).
    destruct (segments versions feedbacks (S index) vs k1) as [tl k2].
    cbn [fst] in *. intros [<- | Hin] Hx; [discriminate|].
    apply in_app_or in Hin. destruct Hin as [Hin | Hin].
    + apply in_map_iff in Hin. destruct Hin as (g & <- & Hg).
      assert (Hg' : In g (fst (window versions feedbacks index v k)))
        by now rewrite Hw.
      apply selected_In in Hg'. destruct Hg' as (Hgf & k' & Hrel).
      exists 0%nat, v, g, k'. rewrite Nat.add_0_r.
      simpl in Hx. injection Hx as <-. repeat split; auto.
    + destruct (IH Hin Hx) as (i & v' & g & k' & H1 & H2 & H3 & H4).
      exists (S i), v', g, k'.
      replace (index + S i)%nat with (S index + i)%nat by lia.
      repeat split; auto.
Qed.

(** Under chronological versions, no window takes a feedback dated as one of
    the versions. *)
Lemma no_window_on_a_boundary versions v f t :
  chronological Date_parse versions ->
  In v versions -> vdate v = Some t -> fdate f = Some t ->
  forall i vi k, nth_error versions i = Some vi ->
    fst (relevant Date_parse now vi (next_date versions i) f k) = false.
Proof.
  intros Hchrono Hv Hvt Hft i vi k Hvi.
  apply In_nth_error in Hv. destruct Hv as [j Hj].
  assert (Hsorted := StronglySorted_nth _ _ Hchrono). simpl in Hsorted.
  destruct (Nat.lt_trichotomy i j) as [Hlt | [-> | Hgt]].
  - destruct (nth_error versions (i + 1)) as [v'|] eqn:Hnext.
    2:{ apply nth_error_None in Hnext.
        assert (j < List.length versions)%nat
          by (apply nth_error_Some; congruence). lia. }
    assert (Hv' : exists y, vdate v' = Some y /\ y <= t).
    { destruct (Nat.eq_dec (i + 1) j) as [E|E].
      - subst j. rewrite Hnext in Hj. injection Hj as ->.
        exists t. split; [exact Hvt | lia].
      - assert (L : JS.lt (vdate v') (vdate v) = true)
          by (apply (Hsorted (i + 1)%nat j); auto; lia).
        apply lt_valid in L. destruct L as (x & y & Hx & Hy & Hxy).
        exists x. split; [exact Hx|]. rewrite Hvt in Hy.
        injection Hy as <-. lia. }
    destruct Hv' as (y & Hy & Hyt). simpl.
    rewrite relevant_closed by (eapply truthy_of_valid; eauto).
    simpl. fold (fdate f) (vdate v'). rewrite Hft, Hy. simpl.
    apply andb_false_iff. right. apply Z.ltb_ge. exact Hyt.
  - rewrite Hvi in Hj. injection Hj as ->.
    destruct (fst (relevant _ _ _ _ _ _)) eqn:Hrel; [|reflexivity].
    apply relevant_after in Hrel.
    fold (vdate v) (fdate f) in Hrel. rewrite Hvt, Hft in Hrel.
    now rewrite lt_irrefl in Hrel.
  - destruct (fst (relevant _ _ _ _ _ _)) eqn:Hrel; [|reflexivity].
    apply relevant_after in Hrel.
    assert (L : JS.lt (vdate v) (vdate vi) = true)
      by (apply (Hsorted j i); auto).
    fold (vdate vi) (fdate f) in Hrel. rewrite Hft in Hrel.
    rewrite Hvt in L. apply lt_asym in L. congruence.
Qed.

Lemma unique_id feedbacks f g :
  NoDup (map fb_id feedbacks) ->
  In f feedbacks -> In g feedbacks -> fb_id g = fb_id f -> g = f.
Proof.
  intros Hnodup Hf Hg Hid. induction feedbacks as [|h hs IH]; [easy|].
  simpl in Hnodup. inversion Hnodup as [|? ? Hnotin Hrest]; subst.
  destruct Hf as [-> | Hf], Hg as [-> | Hg]; auto.
  - exfalso. apply Hnotin. rewrite <- Hid. now apply in_map.
  - exfalso. apply Hnotin. rewrite Hid. now apply in_map.
Qed.

(** C2. A feedback dated exactly as a version is taken neither by the
    window of that version nor by the window that this version closes: both
    tests are strict.  When the versions are in chronological order and two
    feedbacks never share an identifier, it yields no message at all: no
    message of the history refers to it. *)
Theorem C2_feedback_on_a_boundary_is_left_out
  user_input versions feedbacks k f v t :
  fdate f = Some t -> vdate v = Some t ->
  (forall next n, fst (relevant Date_parse now v next f n) = false)
  /\ (forall before n,
        fst (relevant Date_parse now before (Some (dv_created_at v)) f n)
        = false)
  /\ (chronological Date_parse versions ->
      NoDup (map fb_id feedbacks) ->
      In f feedbacks -> In v versions ->
      forall m, In m (fst (build user_input versions feedbacks k)) ->
                feedbackId m <> Some (fb_id f)).
Proof.
  intros Hft Hvt. split; [|split].
  - intros next n.
    destruct (fst (relevant _ _ _ _ _ _)) eqn:Hrel; [|reflexivity].
    apply relevant_after in Hrel.
    fold (vdate v) (fdate f) in Hrel. rewrite Hvt, Hft in Hrel.
    now rewrite lt_irrefl in Hrel.
  - intros before n.
    rewrite relevant_closed
      by (eapply truthy_of_valid; [exact Date_parse_empty | exact Hvt]).
    simpl. fold (fdate f) (vdate v). rewrite Hft, Hvt, lt_irrefl.
    apply andb_false_r.
  - intros Hchrono Hnodup Hf Hv m Hm Href.
    rewrite build_segments in Hm. destruct Hm as [<- | Hm]; [discriminate|].
    destruct (segments_origin _ _ _ _ _ _ _ Hm Href)
      as (i & vi & g & k' & Hvi & Hg & Hid & Hrel).
    assert (g = f) by (eapply unique_id; eauto).
    subst g. simpl in Hrel.
    rewrite (no_window_on_a_boundary versions v f t) in Hrel; auto.
    discriminate.
Qed.

Lemma derived_from_app x ms ms' :
  derived_from x (ms ++ ms') = (derived_from x ms + derived_from x ms')%nat.
Proof.
  unfold derived_from. now rewrite filter_app, length_app.
Qed.

Lemma derived_from_feedbacks_zero x sel :
  (forall g, In g sel -> fb_id g <> x) ->
  derived_from x (map feedback_message sel) = 0%nat.
Proof.
  unfold derived_from. induction sel as [|g sel IH]; intros H; simpl; auto.
  unfold refers_to at 1. simpl.
  destruct (String.eqb_spec (fb_id g) x) as [E|_].
  - exfalso. apply (H g); auto. now left.
  - apply IH. intros g' Hg'. apply H. now right.
Qed.

Lemma derived_from_feedbacks_le1 x sel :
  NoDup (map fb_id sel) ->
  (derived_from x (map feedback_message sel) <= 1)%nat.
Proof.
  induction sel as [|g sel IH]; intros Hnd; simpl; [unfold derived_from; simpl; lia|].
  inversion Hnd as [|? ? Hnotin Hrest]; subst.
  change (feedback_message g :: map feedback_message sel)
    with ([feedback_message g] ++ map feedback_message sel).
  rewrite derived_from_app.
  unfold derived_from at 1. simpl. unfold refers_to at 1. simpl.
  destruct (String.eqb_spec (fb_id g) x) as [E|_]; simpl.
  - rewrite derived_from_feedbacks_zero; [lia|].
    intros g' Hg' E'. apply Hnotin. rewrite E, <- E'. now apply in_map.
  - now apply IH.
Qed.

Lemma derived_from_feedbacks_pos f sel :
  In f sel -> (1 <= derived_from (fb_id f) (map feedback_message sel))%nat.
Proof.
  induction sel as [|g sel IH]; intros Hin; [destruct Hin|].
  change (map feedback_message (g :: sel))
    with ([feedback_message g] ++ map feedback_message sel).
  rewrite derived_from_app. destruct Hin as [-> | Hin].
  - unfold derived_from at 1. simpl. unfold refers_to. simpl.
    rewrite String.eqb_refl. simpl. lia.
  - specialize (IH Hin). lia.
Qed.

Lemma derived_from_feedbacks_inv x sel :
  derived_from x (map feedback_message sel) <> 0%nat ->
  exists g, In g sel /\ fb_id g = x.
Proof.
  induction sel as [|g sel IH]; intros H; [now destruct H|].
  destruct (String.eqb_spec (fb_id g) x) as [E|NE].
  - exists g. split; [now left | exact E].
  - destruct IH as (g' & Hg' & E').
    + intros Hz. apply H.
      apply derived_from_feedbacks_zero. intros h [<- | Hh]; [exact NE|].
      intros Eh. assert (P := derived_from_feedbacks_pos h sel Hh).
      rewrite Eh in P. lia.
    + exists g'. split; [now right | exact E'].
Qed.

Lemma subseq_map {A B : Type} (g : A -> B) (l1 l2 : list A) :
  subseq l1 l2 -> subseq (map g l1) (map g l2).
Proof. induction 1; simpl; now constructor. Qed.

Lemma subseq_NoDup {A : Type} (l1 l2 : list A) :
  subseq l1 l2 -> NoDup l2 -> NoDup l1.
Proof.
  induction 1 as [|x l1 l2 Hs IH|x l1 l2 Hs IH]; intros Hnd.
  - constructor.
  - inversion Hnd; auto.
  - inversion Hnd as [|? ? Hnotin Hrest]; subst. constructor; auto.
    intros Hin. apply Hnotin. eapply subseq_In; eauto.
Qed.

Lemma segments_count x versions feedbacks index v vs k :
  exists sel k1,
    sel = fst (window versions feedbacks index v k)
    /\ derived_from x (fst (segments versions feedbacks index (v :: vs) k)) =
       (derived_from x (map feedback_message sel)
        + derived_from x (fst (segments versions feedbacks (S index) vs k1)))%nat.
Proof.
  simpl. unfold JS.bind, JS.ret.
  destruct (window versions feedbacks index v k) as [sel k1].
  exists sel, k1.
  destruct (segments versions feedbacks (S index) vs k1) as [tl k2]. simpl.
  split; [reflexivity|].
  change (version_message v :: map feedback_message sel ++ tl)
    with ([version_message v] ++ map feedback_message sel ++ tl).
  rewrite !derived_from_app. reflexivity.
Qed.

(** No later window takes a feedback that is not later than its version. *)
Lemma segments_none versions feedbacks f vs : forall index k,
  (forall g, In g feedbacks -> fb_id g = fb_id f -> g = f) ->
  (forall v, In v vs -> JS.lt (vdate v) (fdate f) = false) ->
  derived_from (fb_id f) (fst (segments versions feedbacks index vs k)) = 0%nat.
Proof.
  induction vs as [|v vs IH]; intros index k Huniq Hnot; [reflexivity|].
  destruct (segments_count (fb_id f) versions feedbacks index v vs k)
    as (sel & k1 & -> & ->).
  rewrite IH; auto; [|intros v' Hv'; apply Hnot; now right].
  rewrite derived_from_feedbacks_zero; [reflexivity|].
  intros g Hg Hid. apply selected_In in Hg. destruct Hg as (Hgf & k' & Hrel).
  assert (g = f) by auto. subst g.
  apply relevant_after in Hrel.
  rewrite (Hnot v) in Hrel; [discriminate | now left].
Qed.

(** At most one window takes a given feedback. *)
Lemma segments_le1 versions feedbacks f vs : forall index k,
  (forall j, nth_error vs j = nth_error versions (index + j)) ->
  chronological Date_parse vs ->
  NoDup (map fb_id feedbacks) -> In f feedbacks ->
  (derived_from (fb_id f) (fst (segments versions feedbacks index vs k)) <= 1)%nat.
Proof.
  induction vs as [|v vs IH]; intros index k Hfrom Hchrono Hnd Hf.
  - simpl. unfold derived_from. simpl. lia.
  - destruct (segments_count (fb_id f) versions feedbacks index v vs k)
      as (sel & k1 & Hsel & ->).
    apply StronglySorted_inv in Hchrono as [Hrest Hall].
    assert (Hfrom' : forall j, nth_error vs j = nth_error versions (S index + j)).
    { intros j. replace (S index + j)%nat with (index + S j)%nat by lia.
      now rewrite <- (Hfrom (S j)). }
    assert (Hle : (derived_from (fb_id f) (map feedback_message sel) <= 1)%nat).
    { apply derived_from_feedbacks_le1.
      apply (subseq_NoDup _ (map fb_id feedbacks)); [|exact Hnd].
      apply subseq_map. rewrite Hsel. apply filter_subseq. }
    destruct (Nat.eq_dec (derived_from (fb_id f) (map feedback_message sel)) 0)
      as [Hz | Hnz].
    + rewrite Hz. simpl. apply IH; auto.
    + apply derived_from_feedbacks_inv in Hnz. destruct Hnz as (g & Hg & Hid).
      rewrite Hsel in Hg. apply selected_In in Hg.
      destruct Hg as (Hgf & k' & Hrel).
      assert (g = f) by (eapply unique_id; eauto). subst g.
      rewrite segments_none; [lia | | ].
      * intros g Hg Eg. eapply unique_id; eauto.
      * intros v' Hv'.
        destruct vs as [|v1 vs1]; [destruct Hv'|].
        assert (Hnext : nth_error versions (index + 1) = Some v1).
        { rewrite <- (Hfrom 1%nat). reflexivity. }
        rewrite Hnext in Hrel. simpl in Hrel.
        rewrite Forall_forall in Hall.
        assert (L1 : JS.lt (vdate v) (vdate v1) = true)
          by (apply Hall; now left).
        destruct (lt_valid _ _ L1) as (a & b & _ & Hb & _).
        rewrite relevant_closed in Hrel
          by (eapply truthy_of_valid; eauto).
        simpl in Hrel. apply andb_true_iff in Hrel. destruct Hrel as [_ Hhi].
        fold (vdate v1) (fdate f) in Hhi.
        destruct Hv' as [<- | Hv'].
        -- now apply lt_asym.
        -- apply StronglySorted_inv in Hrest as [_ Hall1].
           rewrite Forall_forall in Hall1.
           apply lt_asym. eapply lt_trans; [exact Hhi|]. now apply Hall1.
Qed.

(** Some window takes a feedback that is later than the first version, on
    no boundary, and older than the readings of the clock. *)
Lemma segments_ge1 versions feedbacks f vs : forall index k v vs',
  vs = v :: vs' ->
  (forall j, nth_error vs j = nth_error versions (index + j)) ->
  chronological Date_parse vs ->
  In f feedbacks ->
  JS.lt (vdate v) (fdate f) = true ->
  (forall v', In v' vs -> vdate v' <> fdate f) ->
  (forall n, JS.lt (fdate f) (Some (now n)) = true) ->
  (1 <= derived_from (fb_id f) (fst (segments versions feedbacks index vs k)))%nat.
Proof.
  induction vs as [|v0 vs IH]; intros index k v vs' E Hfrom Hchrono Hf Hlo Hne Hnow;
    [discriminate|].
  injection E as -> ->.
  destruct (segments_count (fb_id f) versions feedbacks index v vs' k)
    as (sel & k1 & Hsel & ->).
  apply StronglySorted_inv in Hchrono as [Hrest Hall].
  destruct vs' as [|v1 vs1].
  - assert (Hin : In f (fst (window versions feedbacks index v k))).
    { apply window_open_In; auto.
      rewrite <- (Hfrom 1%nat). reflexivity. }
    rewrite <- Hsel in Hin. apply derived_from_feedbacks_pos in Hin. lia.
  - rewrite Forall_forall in Hall.
    assert (L1 : JS.lt (vdate v) (vdate v1) = true)
      by (apply Hall; now left).
    destruct (lt_valid _ _ L1) as (a & b & Ha & Hb & Hab).
    destruct (lt_valid _ _ Hlo) as (a' & x & Ha' & Hx & Hax).
    assert (b <> x).
    { intros ->. apply (Hne v1); [right; now left | congruence]. }
    destruct (Z.lt_trichotomy x b) as [Hxb | [Hxb | Hxb]]; [| congruence |].
    + assert (Hin : In f (fst (window versions feedbacks index v k))).
      { apply window_closed_In with (v' := v1); auto.
        - rewrite <- (Hfrom 1%nat). reflexivity.
        - rewrite Hx, Hb. simpl. now apply Z.ltb_lt. }
      rewrite <- Hsel in Hin. apply derived_from_feedbacks_pos in Hin. lia.
    + assert (P : (1 <= derived_from (fb_id f)
                     (fst (segments versions feedbacks (S index) (v1 :: vs1) k1)))%nat).
      { apply (IH (S index) k1 v1 vs1); auto.
        - intros j. replace (S index + j)%nat with (index + S j)%nat by lia.
          now rewrite <- (Hfrom (S j)).
        - rewrite Hx, Hb. simpl. now apply Z.ltb_lt.
        - intros v' Hv'. apply Hne. now right. }
      lia.
Qed.

(** C6, as the code has it. Under chronological versions and distinct
    feedback identifiers, at most one window takes a feedback, so at most one
    message refers to it; there is exactly one when the feedback is dated
    strictly after the first version, on no version boundary, and before the
    readings of the wall clock. *)
Theorem C6_at_most_one_message_per_feedback
  user_input versions feedbacks k f :
  chronological Date_parse versions ->
  NoDup (map fb_id feedbacks) ->
  In f feedbacks ->
  let history := fst (build user_input versions feedbacks k) in
  (derived_from (fb_id f) history <= 1)%nat
  /\ (forall first,
        hd_error versions = Some first ->
        JS.lt (vdate first) (fdate f) = true ->
        (forall v, In v versions -> vdate v <> fdate f) ->
        (forall n, JS.lt (fdate f) (Some (now n)) = true) ->
        derived_from (fb_id f) history = 1%nat).
Proof.
  intros Hchrono Hnd Hf. simpl. rewrite build_segments.
  change (initial_message user_input
            :: fst (segments versions feedbacks 0 versions k))
    with ([initial_message user_input]
            ++ fst (segments versions feedbacks 0 versions k)).
  rewrite derived_from_app.
  assert (Hle := segments_le1 versions feedbacks f versions 0 k
                   (fun j => eq_refl) Hchrono Hnd Hf).
  split; [exact Hle|].
  intros first Hfirst Hlo Hne Hnow.
  destruct versions as [|v vs]; [discriminate|].
  injection Hfirst as ->.
  assert (Hge := segments_ge1 (first :: vs) feedbacks f (first :: vs) 0 k first vs
                   eq_refl (fun j => eq_refl) Hchrono Hf Hlo Hne Hnow).
  change (derived_from (fb_id f) [initial_message user_input]) with 0%nat in *.
  lia.
Qed.

End WindowTheorems.

(** ** The page: loading a draft, deleting a feedback *)

Section PageTheorems.

Import Chat Transcript.

Variable Date_parse : string -> JS.Date.
Variable now : nat -> Z.

Lemma fetchDraft_try_failed draftResult versionsQuery feedbacksQuery st k :
  failed versionsQuery = true \/ failed feedbacksQuery = true ->
  exists reason st',
    fst (fetchDraft_try Date_parse now draftResult versionsQuery feedbacksQuery
           st k) = (Thrown reason, st')
    /\ messages st' = messages st
    /\ toasts st' = toasts st
    /\ location st' = location st.
Proof.
  intros Hfailed. unfold fetchDraft_try.
  destruct draftResult as [[d [e|]]|r]; simpl; eauto 6.
  destruct versionsQuery as [[vs [ev|]]|rv], feedbacksQuery as [[fs [ef|]]|rf];
    simpl in *; eauto 6.
  destruct Hfailed; discriminate.
Qed.

(** C8. When the query of the versions or the query of the feedbacks fails,
    [fetchDraft] leaves the displayed messages as they were; the load ends
    with the error notification and the route of a new chat, not loading. *)
Theorem C8_failed_fetch_shows_no_transcript
  draft_id draftResult versionsQuery feedbacksQuery st k :
  failed versionsQuery = true \/ failed feedbacksQuery = true ->
  let st' := fst (fetchDraft Date_parse now draft_id draftResult versionsQuery
                    feedbacksQuery st k) in
  messages st' = messages st
  /\ (forall s, draft_id = Some s -> s <> EmptyString -> s <> "new" ->
        toasts st' = toasts st ++ [ {| title := "Error loading draft";
                                       description := "Please try again.";
                                       destructive := true |} ]
        /\ location st' = "/chat/new"
        /\ loading st' = false).
Proof.
  intros Hfailed. simpl. unfold fetchDraft.
  destruct (negb (JS.truthy draft_id) || _) eqn:Hguard.
  - split; [reflexivity|]. intros s -> Hs Hnew. exfalso.
    simpl in Hguard. apply orb_true_iff in Hguard. destruct Hguard as [H|H].
    + apply negb_true_iff, negb_false_iff, String.eqb_eq in H. contradiction.
    + apply String.eqb_eq in H. contradiction.
  - unfold JS.bind, JS.ret.
    destruct (fetchDraft_try_failed draftResult versionsQuery feedbacksQuery
                (setLoading true st) k Hfailed)
      as (reason & st1 & Heq & Hm & Ht & Hl).
    destruct (fetchDraft_try _ _ _ _ _ _ k) as [[c st2] k2]. simpl in *.
    injection Heq as -> ->. simpl.
    split; [exact Hm|]. intros s _ _ _. rewrite Ht. auto.
Qed.

Lemma feedbackId_differs_refers_to m feedbackId :
  feedbackId_differs m feedbackId = negb (refers_to feedbackId m).
Proof.
  unfold feedbackId_differs, refers_to. now destruct (Chat.feedbackId m).
Qed.

(** C9. Deleting the feedback [f1], once the DELETE request has succeeded,
    leaves exactly the messages that do not refer to [f1], in the order they
    had: every message that refers to [f1] is gone, every other message
    stays. *)
Theorem C9_delete_removes_the_messages_of_the_feedback f1 st :
  let st' := deleteFeedback f1 (Fulfilled {| ok := true |}) st in
  messages st' = List.filter (fun m => negb (refers_to f1 m)) (messages st)
  /\ subseq (messages st') (messages st)
  /\ (forall m, In m (messages st')
                <-> In m (messages st) /\ feedbackId m <> Some f1)
  /\ derived_from f1 (messages st') = 0%nat.
Proof.
  simpl.
  assert (E : List.filter (fun m => feedbackId_differs m f1) (messages st) =
              List.filter (fun m => negb (refers_to f1 m)) (messages st)).
  { apply filter_ext. intros m. apply feedbackId_differs_refers_to. }
  rewrite E. split; [reflexivity|]. split; [apply subseq_filter|]. split.
  - intros m. rewrite List.filter_In. unfold refers_to.
    destruct (feedbackId m) as [s|]; simpl.
    + destruct (String.eqb_spec s f1) as [->|NE]; simpl.
      * split; [intros [_ H]; discriminate | intros [_ H]; now destruct H].
      * split; [intros [H _]; split; [exact H | congruence]
               | intros [H _]; now split].
    + split; [intros [H _]; split; [exact H | discriminate]
             | intros [H _]; now split].
  - clear E. unfold derived_from.
    induction (messages st) as [|m ms IH]; simpl; auto.
    destruct (refers_to f1 m) eqn:R; simpl; [exact IH|].
    now rewrite R.
Qed.

(** When the DELETE request fails, the messages stay as they are. *)
Lemma deleteFeedback_failed f1 response st :
  match response with
  | Fulfilled r => ok r = false
  | Rejected _ => True
  end ->
  messages (deleteFeedback f1 response st) = messages st.
Proof.
  unfold deleteFeedback. destruct response as [[[|]]|r]; simpl; auto.
  discriminate.
Qed.

End PageTheorems.

(** ** The validity flag of the feedbacks the repository writes *)

Section FeedbackValidity.

Variable accepts : Schema.email_feedbacks -> bool.

Local Abbreviation valid := (fun row => Schema.is_valid row = true).

Lemma new_row_valid u n values row :
  Schema.ins_is_valid values = None \/ Schema.ins_is_valid values = Some true ->
  Schema.new_row u n values = Some row -> Schema.is_valid row = true.
Proof.
  unfold Schema.new_row. intros H.
  destruct (Schema.ins_draft_id values), (Schema.ins_user_id values),
    (Schema.ins_feedback_text values); try discriminate.
  intros [= <-]. simpl. destruct H as [-> | ->]; reflexivity.
Qed.

Lemma insert_valid u n values table :
  Schema.ins_is_valid values = None \/ Schema.ins_is_valid values = Some true ->
  Forall valid table -> Forall valid (Schema.insert accepts u n values table).
Proof.
  intros H Ht. unfold Schema.insert.
  destruct (Schema.new_row u n values) as [row|] eqn:Hrow; [|exact Ht].
  destruct (accepts row); [|exact Ht].
  apply Forall_app. split; [exact Ht|]. constructor; [|constructor].
  eapply new_row_valid; eauto.
Qed.





End FeedbackValidity.


(** ** The theorems at concrete rows *)

Section Runs.

Import Chat Transcript Examples.

Local Abbreviation utc := JS.Date_parse_utc.

Lemma utc_empty : utc EmptyString = None.
Proof. reflexivity. Qed.

Lemma chronological_AB : chronological utc [draftA; draftB].
Proof.
  unfold chronological.
  repeat match goal with
         | |- StronglySorted _ _ => constructor
         | |- Forall _ _ => constructor
         | |- _ = true => vm_compute; reflexivity
         end.
Defined.

Lemma distinct_ids (fs : list Feedback) :
  (if list_eq_dec string_dec (nodup string_dec (map fb_id fs)) (map fb_id fs)
   then true else false) = true ->
  NoDup (map fb_id fs).
Proof.
  destruct (list_eq_dec _ _ _) as [E|]; [|discriminate].
  intros _. rewrite <- E. apply NoDup_nodup.
Defined.

Lemma before_noon (f : Feedback) (t : Z) :
  feedback_date utc f = Some t -> t < 1709294400000 ->
  forall n, JS.lt (feedback_date utc f) (Some (noon n)) = true.
Proof.
  intros -> Ht n. unfold JS.lt, noon.
  apply Z.ltb_lt. lia.
Defined.

Lemma C1_witness :
  exists pre sel post,
    fst (buildMessageHistory utc noon request [draftA; draftB] [f1; f2] 0%nat) =
      pre ++ version_message draftA
          :: map feedback_message sel ++ version_message draftB :: post
    /\ assistants pre = 0%nat /\ In f1 sel /\ subseq sel [f1; f2].
Proof.
  apply (C1_feedback_between_versions utc noon utc_empty request
           [draftA; draftB] [f1; f2] 0%nat 0%nat draftA draftB f1).
  - reflexivity.
  - reflexivity.
  - simpl. auto.
  - vm_compute. reflexivity.
  - vm_compute. reflexivity.
Defined.

Lemma C2_witness :
  fst (relevant utc noon draftB None f_tie 0%nat) = false
  /\ fst (relevant utc noon draftA (Some (dv_created_at draftB)) f_tie 0%nat)
     = false
  /\ Forall (fun m => feedbackId m <> Some "f3")
            (fst (buildMessageHistory utc noon request [draftA; draftB]
                    [f1; f_tie; f2] 0%nat)).
Proof.
  destruct (C2_feedback_on_a_boundary_is_left_out utc noon utc_empty request
              [draftA; draftB] [f1; f_tie; f2] 0%nat f_tie draftB
              1709287800000) as (Hown & Hbefore & Hnone).
  - vm_compute. reflexivity.
  - vm_compute. reflexivity.
  - split; [apply Hown|]. split; [apply Hbefore|].
    apply Forall_forall. apply Hnone.
    + exact chronological_AB.
    + apply distinct_ids. vm_compute. reflexivity.
    + simpl. auto.
    + simpl. auto.
Defined.

Lemma C3_witness :
  exists pre sel post,
    fst (buildMessageHistory utc noon request [draftA; draftB] [f1; f2] 0%nat) =
      pre ++ version_message draftB :: map feedback_message sel ++ post
    /\ assistants pre = 1%nat
    /\ match post with [] => True | m :: _ => type m = assistant end
    /\ subseq sel [f1; f2]
    /\ (by_created_at utc [f1; f2] -> by_created_at utc sel)
    /\ Forall (fun m => type m = user) (map feedback_message sel)
    /\ map isError (map feedback_message sel)
       = map (fun f => Some (negb (fb_is_valid f))) sel
    /\ map feedbackId (map feedback_message sel)
       = map (fun f => Some (fb_id f)) sel.
Proof.
  apply (C3_window_in_input_order utc noon request [draftA; draftB] [f1; f2]
           0%nat 1%nat draftB).
  reflexivity.
Defined.


Lemma C5_witness :
  fst (buildMessageHistory utc noon request [draftA; draftB] [f1; f2] 0%nat) =
  fst (buildMessageHistory utc noon request [draftA; draftB] [f1; f2] 7%nat).
Proof.
  apply (C5_same_history_under_like_clocks utc noon noon request
           [draftA; draftB] [f1; f2] 0%nat 7%nat).
  intros f i j [<- | [<- | []]].
  - rewrite !(before_noon f1 1709287500000)
      by (try lia; vm_compute; reflexivity).
    reflexivity.
  - rewrite !(before_noon f2 1709288100000)
      by (try lia; vm_compute; reflexivity).
    reflexivity.
Defined.

Lemma C6_witness :
  (derived_from "f1"
     (fst (buildMessageHistory utc noon request [draftA; draftB]
             [f1; f_tie; f2] 0%nat)) <= 1)%nat
  /\ derived_from "f1"
       (fst (buildMessageHistory utc noon request [draftA; draftB]
               [f1; f_tie; f2] 0%nat)) = 1%nat.
Proof.
  destruct (C6_at_most_one_message_per_feedback utc noon utc_empty request
              [draftA; draftB] [f1; f_tie; f2] 0%nat f1 chronological_AB)
    as [Hle Hone].
  - apply distinct_ids. vm_compute. reflexivity.
  - simpl. auto.
  - split; [exact Hle|]. apply (Hone draftA).
    + reflexivity.
    + vm_compute. reflexivity.
    + intros v [<- | [<- | []]]; vm_compute; discriminate.
    + apply (before_noon f1 1709287500000); [vm_compute; reflexivity | lia].
Defined.

Lemma C8_witness :
  messages (fst (fetchDraft utc noon (Some "d1") (Fulfilled found_draft)
                   (Fulfilled found_versions) (Fulfilled denied) page 0%nat))
  = messages page
  /\ location (fst (fetchDraft utc noon (Some "d1") (Fulfilled found_draft)
                      (Fulfilled found_versions) (Fulfilled denied) page 0%nat))
     = "/chat/new".
Proof.
  destruct (C8_failed_fetch_shows_no_transcript utc noon (Some "d1")
              (Fulfilled found_draft) (Fulfilled found_versions)
              (Fulfilled denied) page 0%nat) as [Hm Hrest].
  - right. reflexivity.
  - split; [exact Hm|].
    destruct (Hrest "d1" eq_refl) as (_ & Hl & _); [discriminate.. | exact Hl].
Defined.

(** C3: the feedbacks of a window handed over in descending order come out
    in descending order. *)
Lemma C3_descending_input_counterexample :
  fst (buildMessageHistory utc noon request [draftA] [f2; f1] 0%nat) =
    [initial_message request; version_message draftA;
     feedback_message f2; feedback_message f1]
  /\ JS.lt (feedback_date utc f1) (feedback_date utc f2) = true.
Proof. split; vm_compute; reflexivity. Qed.


(** C5: the same rows give two histories at two readings of the clock. *)
Lemma C5_two_runs_counterexample :
  fst (buildMessageHistory utc every_five_minutes request
         [draftA; draftB] [f2] 0%nat) <>
  fst (buildMessageHistory utc every_five_minutes request
         [draftA; draftB] [f2] 1%nat).
Proof. vm_compute. discriminate. Qed.

(** C6: a feedback dated as the second version falls in no window. *)
Lemma C6_boundary_counterexample :
  chronological utc [draftA; draftB]
  /\ feedback_date utc f_tie = version_date utc draftB
  /\ derived_from (fb_id f_tie)
       (fst (buildMessageHistory utc noon request [draftA; draftB] [f_tie]
               0%nat)) = 0%nat.
Proof.
  split; [exact chronological_AB|]. split; vm_compute; reflexivity.
Qed.

(** C7: two versions and no feedback give user, assistant, assistant. *)
Lemma C7_two_versions_counterexample :
  map type (fst (buildMessageHistory utc noon request [draftA; draftB] []
                   0%nat)) = [user; assistant; assistant]
  /\ alternates user
       (fst (buildMessageHistory utc noon request [draftA; draftB] [] 0%nat))
     = false.
Proof. split; vm_compute; reflexivity. Qed.

End Runs.

(** ** More on the message history: what it holds and what it leaves out *)

Section HistoryContents.

Import Chat Transcript.

Variable Date_parse : string -> JS.Date.
Variable now : nat -> Z.

Local Abbreviation window := (Transcript.window Date_parse now).
Local Abbreviation segments := (Transcript.segments Date_parse now).
Local Abbreviation build := (Chat.buildMessageHistory Date_parse now).
Local Abbreviation vdate := (Transcript.version_date Date_parse).
Local Abbreviation fdate := (Transcript.feedback_date Date_parse).

Lemma no_assistant_among_feedbacks sel :
  List.filter is_assistant (map feedback_message sel) = [].
Proof. induction sel as [|g sel IH]; simpl; auto. Qed.

Lemma segments_versions versions feedbacks vs : forall index k,
  List.filter is_assistant (fst (segments versions feedbacks index vs k)) =
  map version_message vs.
Proof.
  induction vs as [|v vs IH]; intros index k; [reflexivity|].
  cbn [Transcript.segments]. unfold JS.bind, JS.ret.
  destruct (window versions feedbacks index v k) as [sel k1].
  specialize (IH (S index) k1).
  destruct (segments versions feedbacks (S index) vs k1) as [tl k2].
  cbn [fst] in *.
  change (version_message v :: map feedback_message sel ++ tl)
    with ([version_message v] ++ map feedback_message sel ++ tl).
  rewrite !filter_app, no_assistant_among_feedbacks, IH. reflexivity.
Qed.

(** X1. Whatever the feedbacks and the clock, the assistant messages of the
    history are the messages of the versions, each once, in the order of the
    versions: no version is dropped, repeated or moved. *)
Theorem X1_every_version_shown_once_in_order user_input versions feedbacks k :
  List.filter is_assistant (fst (build user_input versions feedbacks k)) =
  map version_message versions.
Proof.
  rewrite build_segments.
  change (initial_message user_input
            :: fst (segments versions feedbacks 0 versions k))
    with ([initial_message user_input]
            ++ fst (segments versions feedbacks 0 versions k)).
  rewrite filter_app, segments_versions. reflexivity.
Qed.

Lemma segments_members versions feedbacks vs m : forall index k,
  In m (fst (segments versions feedbacks index vs k)) ->
  (exists v, In v vs /\ m = version_message v)
  \/ (exists g v, In g feedbacks /\ In v vs /\ m = feedback_message g
                  /\ JS.lt (vdate v) (fdate g) = true).
Proof.
  induction vs as [|v vs IH]; intros index k; [intros []|].
  cbn [Transcript.segments]. unfold JS.bind, JS.ret.
  destruct (window versions feedbacks index v k) as [sel k1] eqn:Hw.
  specialize (IH (S index) k1).
  destruct (segments versions feedbacks (S index) vs k1) as [tl k2].
  cbn [fst] in *. intros [<- | Hin].
  - left. exists v. split; [now left | reflexivity].
  - apply in_app_or in Hin. destruct Hin as [Hin | Hin].
    + apply in_map_iff in Hin. destruct Hin as (g & <- & Hg).
      assert (Hg' : In g (fst (window versions feedbacks index v k)))
        by now rewrite Hw.
      apply selected_In in Hg'. destruct Hg' as (Hgf & k' & Hrel).
      apply relevant_after in Hrel.
      right. exists g, v. repeat split; auto. now left.
    + destruct (IH Hin) as [(v' & Hv' & E) | (g & v' & Hg & Hv' & E & L)].
      * left. exists v'. split; [now right | exact E].
      * right. exists g, v'. repeat split; auto. now right.
Qed.

(** X2. Every message of the history is the original request, the message of
    one of the versions, or the message of one of the given feedbacks that
    was created strictly after one of the versions.  So without a version
    the history is the request alone, whatever feedbacks there are. *)
Theorem X2_nothing_but_request_versions_and_later_feedbacks
  user_input versions feedbacks k :
  Forall (fun m =>
            m = initial_message user_input
            \/ (exists v, In v versions /\ m = version_message v)
            \/ (exists g v, In g feedbacks /\ In v versions
                            /\ m = feedback_message g
                            /\ JS.lt (vdate v) (fdate g) = true))
         (fst (build user_input versions feedbacks k))
  /\ (versions = [] ->
      fst (build user_input versions feedbacks k)
      = [initial_message user_input]).
Proof.
  split.
  - apply Forall_forall. intros m Hm. rewrite build_segments in Hm.
    destruct Hm as [<- | Hm]; [now left | right].
    now apply (segments_members versions feedbacks versions m 0%nat k).
  - intros ->. reflexivity.
Qed.

(** X3. The feedback messages that follow the message of a version all come
    from given feedbacks created strictly after that version; strictly
    before the next version when there is one with a non-empty [created_at];
    and strictly before a reading of the wall clock when the version is the
    last. *)
Theorem X3_window_holds_only_feedbacks_of_its_interval
  user_input versions feedbacks k i v :
  nth_error versions i = Some v ->
  exists pre sel post,
    fst (build user_input versions feedbacks k) =
      pre ++ version_message v :: map feedback_message sel ++ post
    /\ assistants pre = i
    /\ match post with [] => True | m :: _ => type m = assistant end
    /\ Forall (fun g =>
                 In g feedbacks
                 /\ JS.lt (vdate v) (fdate g) = true
                 /\ (forall v', nth_error versions (S i) = Some v' ->
                                dv_created_at v' <> EmptyString ->
                                JS.lt (fdate g) (vdate v') = true)
                 /\ (nth_error versions (S i) = None ->
                     exists n, JS.lt (fdate g) (Some (now n)) = true))
              sel.
Proof.
  intros Hv.
  rewrite build_segments.
  destruct (segments_split Date_parse now versions feedbacks versions 0 k i v Hv)
    as (pre & k1 & k2 & Heq & Hpre).
  simpl in Heq.
  exists (initial_message user_input :: pre),
         (fst (window versions feedbacks i v k1)),
         (fst (segments versions feedbacks (S i) (skipn (S i) versions) k2)).
  split; [now rewrite Heq|]. split; [exact Hpre|].
  split.
  { destruct (skipn (S i) versions) as [|v' rest]; simpl; [exact I|].
    unfold JS.bind, JS.ret.
    destruct (window versions feedbacks (S i) v' k2) as [sel' k3].
    destruct (segments versions feedbacks (S (S i)) rest k3) as [tl k4].
    reflexivity. }
  apply Forall_forall. intros g Hg.
  apply selected_In in Hg. destruct Hg as (Hgf & k' & Hrel).
  split; [exact Hgf|]. split; [eapply relevant_after; exact Hrel|].
  rewrite Nat.add_1_r in Hrel. split.
  - intros v' Hv' Hne. rewrite Hv' in Hrel. cbn [option_map] in Hrel.
    rewrite relevant_closed in Hrel.
    + simpl in Hrel. now apply andb_true_iff in Hrel.
    + rewrite truthy_Some.
      destruct (String.eqb_spec (dv_created_at v') EmptyString); auto.
  - intros Hnone. rewrite Hnone in Hrel. cbn [option_map] in Hrel.
    rewrite relevant_open in Hrel by reflexivity.
    simpl in Hrel. apply andb_true_iff in Hrel. exists k'. apply Hrel.
Qed.

(** X4. A feedback that is later than none of the versions (created before
    or with the first of them, or with a [created_at] that does not parse)
    is left out of the history: with distinct feedback identifiers, no
    message refers to it. *)
Theorem X4_feedback_later_than_no_version_is_left_out
  user_input versions feedbacks k f :
  NoDup (map fb_id feedbacks) ->
  In f feedbacks ->
  (forall v, In v versions -> JS.lt (vdate v) (fdate f) = false) ->
  derived_from (fb_id f) (fst (build user_input versions feedbacks k)) = 0%nat.
Proof.
  intros Hnd Hf Hnot. rewrite build_segments.
  change (initial_message user_input
            :: fst (segments versions feedbacks 0 versions k))
    with ([initial_message user_input]
            ++ fst (segments versions feedbacks 0 versions k)).
  rewrite derived_from_app.
  rewrite (segments_none Date_parse now versions feedbacks f versions 0%nat k);
    auto.
  intros g Hg E. eapply unique_id; eauto.
Qed.

End HistoryContents.

(** ** Loading a draft: the two ways [fetchDraft] ends *)

Section LoadOutcomes.

Import Chat ChatPage Transcript.

Variable Date_parse : string -> JS.Date.
Variable now : nat -> Z.

Lemma route_guard_passes s :
  s <> EmptyString -> s <> "new" ->
  negb (JS.truthy (Some s))
  || (s =? "new")%string = false.
Proof.
  intros Hs Hnew. simpl.
  destruct (String.eqb_spec s EmptyString); [contradiction|].
  destruct (String.eqb_spec s "new"); [contradiction|]. reflexivity.
Qed.

(** X5. When the three queries of a load succeed and the draft query
    returns a draft, [fetchDraft] ends with that draft, with the history
    built from its request, the versions and the feedbacks (an absent [data]
    counting as the empty list), not loading, and with no notification and no
    navigation. *)
Theorem X5_successful_load_shows_the_built_history s d vs fs st k :
  s <> EmptyString -> s <> "new" ->
  fst (fetchDraft Date_parse now (Some s)
         (Fulfilled {| data := Some d; error := None |})
         (Fulfilled {| data := vs; error := None |})
         (Fulfilled {| data := fs; error := None |}) st k) =
  {| draft := Some d;
     messages :=
       fst (buildMessageHistory Date_parse now (d_user_input d)
              (match vs with Some l => l | None => [] end)
              (match fs with Some l => l | None => [] end) k);
     loading := false;
     toasts := toasts st;
     location := location st |}.
Proof.
  intros Hs Hnew. unfold fetchDraft.
  change (negb (JS.truthy (Some s))
          || match Some s with Some s0 => (s0 =? "new")%string | None => false end)
    with (negb (JS.truthy (Some s)) || (s =? "new")%string).
  rewrite (route_guard_passes s Hs Hnew).
  unfold fetchDraft_try, JS.bind, JS.ret. simpl.
  destruct (buildMessageHistory _ _ _ _ _ k) as [history k']. reflexivity.
Qed.

(** X6. When the draft query fails or returns no draft, or the versions or
    feedbacks query fails, [fetchDraft] leaves the messages as they were,
    adds the one error notification, goes to the route of a new chat, ends
    not loading and reads no clock.  The draft of the page is replaced by
    what the draft query returned whenever that query itself passed: a load
    that fails later still changes the draft. *)
Theorem X6_failed_load_keeps_messages_but_may_replace_the_draft
  s draftResult versionsQuery feedbacksQuery st k :
  s <> EmptyString -> s <> "new" ->
  fetched_draft draftResult = None
  \/ failed versionsQuery = true \/ failed feedbacksQuery = true ->
  fetchDraft Date_parse now (Some s) draftResult versionsQuery feedbacksQuery
    st k =
  ({| draft := if draft_query_passed draftResult
               then fetched_draft draftResult else draft st;
      messages := messages st;
      loading := false;
      toasts := toasts st ++ [ {| title := "Error loading draft";
                                  description := "Please try again.";
                                  destructive := true |} ];
      location := "/chat/new" |}, k).
Proof.
  intros Hs Hnew Hfail. unfold fetchDraft.
  change (negb (JS.truthy (Some s))
          || match Some s with Some s0 => (s0 =? "new")%string | None => false end)
    with (negb (JS.truthy (Some s)) || (s =? "new")%string).
  rewrite (route_guard_passes s Hs Hnew).
  unfold fetchDraft_try, JS.bind, JS.ret, draft_query_passed.
  destruct draftResult as [[d [e|]]|r]; simpl; try reflexivity.
  destruct versionsQuery as [[vs [ev|]]|rv], feedbacksQuery as [[fs [ef|]]|rf];
    simpl in *; try reflexivity.
  destruct d as [d|]; [|reflexivity].
  destruct Hfail as [H | [H | H]]; discriminate.
Qed.

End LoadOutcomes.

(** ** Deleting feedbacks from the chat *)

Section DeleteFacts.

Import Chat ChatPage Transcript.

Lemma deleted_messages x st :
  messages (deleteFeedback x (Fulfilled {| ok := true |}) st) =
  List.filter (fun m => feedbackId_differs m x) (messages st).
Proof. reflexivity. Qed.

Lemma filter_twice {A : Type} (p : A -> bool) (l : list A) :
  List.filter p (List.filter p l) = List.filter p l.
Proof.
  induction l as [|a l IH]; simpl; [reflexivity|].
  destruct (p a) eqn:E; simpl; [rewrite E|]; now rewrite IH.
Qed.

Lemma filter_swap {A : Type} (p q : A -> bool) (l : list A) :
  List.filter p (List.filter q l) = List.filter q (List.filter p l).
Proof.
  induction l as [|a l IH]; simpl; [reflexivity|].
  destruct (p a) eqn:P, (q a) eqn:Q; simpl;
    rewrite ?P, ?Q, IH; reflexivity.
Qed.

(** X7. [deleteFeedback] changes nothing but the messages and the
    notifications: the draft, the loading flag and the route stay; it adds
    exactly one notification, an error exactly when the DELETE request was
    rejected or answered not ok, and then the messages stay as well.  In no
    case does it add or reorder a message. *)
Theorem X7_delete_touches_messages_and_notifications_only x answer st :
  let done :=
    match answer with Fulfilled r => ok r | Rejected _ => false end in
  let st' := deleteFeedback x answer st in
  draft st' = draft st /\ loading st' = loading st
  /\ location st' = location st
  /\ (exists t, toasts st' = toasts st ++ [t] /\ destructive t = negb done)
  /\ (done = false -> messages st' = messages st)
  /\ subseq (messages st') (messages st).
Proof.
  assert (Hrefl : forall ms : list Message, subseq ms ms)
    by (induction ms; now constructor).
  unfold deleteFeedback.
  destruct answer as [[[|]]|r]; simpl.
  - repeat split; auto; [eexists; split; reflexivity | discriminate
                        | apply subseq_filter].
  - repeat split; auto. eexists; split; reflexivity.
  - repeat split; auto. eexists; split; reflexivity.
Qed.

(** X8. Deleting the same feedback again removes nothing more, and two
    feedbacks can be deleted in either order: the messages come out the
    same. *)
Theorem X8_deletes_are_idempotent_and_commute x y st :
  let del z st := deleteFeedback z (Fulfilled {| ok := true |}) st in
  messages (del x (del x st)) = messages (del x st)
  /\ messages (del x (del y st)) = messages (del y (del x st)).
Proof.
  simpl. split.
  - apply filter_twice.
  - apply filter_swap.
Qed.

Section OnHistories.

Variable Date_parse : string -> JS.Date.
Variable now : nat -> Z.

Local Abbreviation window := (Transcript.window Date_parse now).
Local Abbreviation segments := (Transcript.segments Date_parse now).
Local Abbreviation build := (Chat.buildMessageHistory Date_parse now).
Local Abbreviation fdate := (Transcript.feedback_date Date_parse).

Lemma differs_on_feedback_messages x sel :
  List.filter (fun m => feedbackId_differs m x) (map feedback_message sel) =
  map feedback_message
      (List.filter (fun g => negb (fb_id g =? x)%string) sel).
Proof.
  induction sel as [|g sel IH]; simpl; [reflexivity|].
  unfold feedbackId_differs at 1. simpl.
  destruct (fb_id g =? x)%string; simpl; now rewrite IH.
Qed.

(** Selecting after leaving some elements out, with a callback whose verdict
    does not depend on the readings of the clock. *)
Lemma selected_after_filter {A : Type} (p : A -> JS.Clocked bool)
  (q : A -> bool) (xs : list A) :
  (forall a i j, In a xs -> fst (p a i) = fst (p a j)) ->
  forall k k',
    fst (JS.filter p (List.filter q xs) k') =
    List.filter q (fst (JS.filter p xs k)).
Proof.
  induction xs as [|a xs IH]; intros H k k'; [reflexivity|].
  assert (H' : forall b i j, In b xs -> fst (p b i) = fst (p b j))
    by (intros b i j Hb; apply H; now right).
  cbn [List.filter JS.filter]. unfold JS.bind, JS.ret.
  destruct (p a k) as [keep k1] eqn:Hk.
  specialize (IH H').
  destruct (q a) eqn:Q.
  - cbn [JS.filter]. unfold JS.bind, JS.ret.
    destruct (p a k') as [keep' k1'] eqn:Hk'.
    assert (keep' = keep).
    { assert (E := H a k' k (or_introl eq_refl)).
      now rewrite Hk, Hk' in E. }
    subst keep'. specialize (IH k1 k1').
    destruct (JS.filter p (List.filter q xs) k1') as [r1 k2'].
    destruct (JS.filter p xs k1) as [r2 k2].
    cbn [fst] in *. subst r1.
    destruct keep; simpl; now rewrite ?Q.
  - specialize (IH k1 k').
    destruct (JS.filter p xs k1) as [r2 k2].
    cbn [fst] in *. rewrite IH.
    destruct keep; simpl; now rewrite ?Q.
Qed.

Lemma segments_after_delete x versions feedbacks vs :
  (forall g i j, In g feedbacks ->
     JS.lt (fdate g) (Some (now i)) = JS.lt (fdate g) (Some (now j))) ->
  forall index k k',
    List.filter (fun m => feedbackId_differs m x)
                (fst (segments versions feedbacks index vs k)) =
    fst (segments versions
           (List.filter (fun g => negb (fb_id g =? x)%string) feedbacks)
           index vs k').
Proof.
  intros H. induction vs as [|v vs IH]; intros index k k'; [reflexivity|].
  cbn [Transcript.segments]. unfold JS.bind, JS.ret.
  assert (Hw : forall k1',
             fst (window versions
                    (List.filter (fun g => negb (fb_id g =? x)%string) feedbacks)
                    index v k1') =
             List.filter (fun g => negb (fb_id g =? x)%string)
                         (fst (window versions feedbacks index v k))).
  { intros k1'. unfold Transcript.window. apply selected_after_filter.
    intros g i j Hg. apply relevant_agree. now apply H. }
  specialize (Hw k').
  destruct (window versions feedbacks index v k) as [sel k1].
  destruct (window versions _ index v k') as [sel' k1'].
  cbn [fst] in Hw. subst sel'.
  specialize (IH (S index) k1 k1').
  destruct (segments versions feedbacks (S index) vs k1) as [tl k2].
  destruct (segments versions _ (S index) vs k1') as [tl' k2'].
  cbn [fst] in *. subst tl'.
  change (version_message v :: map feedback_message sel ++ tl)
    with ([version_message v] ++ map feedback_message sel ++ tl).
  rewrite !filter_app, differs_on_feedback_messages. reflexivity.
Qed.

(** X9. Deleting a feedback from a loaded history gives the history that a
    reload without that feedback would build, provided the readings of the
    wall clock compare alike with the date of every feedback (as when all
    feedbacks are older than the readings). *)
Theorem X9_delete_agrees_with_a_reload
  user_input versions feedbacks x st k k' :
  (forall g i j, In g feedbacks ->
     JS.lt (fdate g) (Some (now i)) = JS.lt (fdate g) (Some (now j))) ->
  messages
    (deleteFeedback x (Fulfilled {| ok := true |})
       (setMessages (fst (build user_input versions feedbacks k)) st)) =
  fst (build user_input versions
         (List.filter (fun g => negb (fb_id g =? x)%string) feedbacks) k').
Proof.
  intros H. rewrite deleted_messages. cbn [messages setMessages].
  rewrite !build_segments. cbn [List.filter].
  change (feedbackId_differs (initial_message user_input) x) with true.
  cbv iota. f_equal. now apply segments_after_delete.
Qed.

Lemma derived_from_after_delete x y ms :
  y <> x ->
  derived_from y (List.filter (fun m => feedbackId_differs m x) ms) =
  derived_from y ms.
Proof.
  intros Hxy. unfold derived_from. f_equal. rewrite filter_swap.
  induction ms as [|m ms IH]; simpl; [reflexivity|].
  destruct (refers_to y m) eqn:R; simpl; [|exact IH].
  assert (D : feedbackId_differs m x = true).
  { unfold refers_to in R. unfold feedbackId_differs.
    destruct (feedbackId m) as [s0|]; [|reflexivity].
    apply String.eqb_eq in R. subst s0.
    destruct (String.eqb_spec y x); [contradiction | reflexivity]. }
  rewrite D. now rewrite IH.
Qed.

(** X10. Deleting a feedback from a loaded history, whatever the clock,
    keeps the original request in front, keeps the message of every version
    in order, and keeps as many messages of every other feedback as there
    were. *)
Theorem X10_delete_keeps_request_versions_and_other_feedbacks
  user_input versions feedbacks x st k :
  let history := fst (build user_input versions feedbacks k) in
  let left :=
    messages (deleteFeedback x (Fulfilled {| ok := true |})
                (setMessages history st)) in
  hd_error left = Some (initial_message user_input)
  /\ List.filter is_assistant left = map version_message versions
  /\ (forall y, y <> x -> derived_from y left = derived_from y history).
Proof.
  cbv zeta. rewrite deleted_messages. cbn [messages setMessages].
  split; [|split].
  - rewrite build_segments. reflexivity.
  - rewrite filter_swap, build_segments.
    change (initial_message user_input
              :: fst (segments versions feedbacks 0 versions k))
      with ([initial_message user_input]
              ++ fst (segments versions feedbacks 0 versions k)).
    rewrite filter_app, (segments_versions Date_parse now). simpl.
    induction versions as [|v vs IH]; simpl; [reflexivity|].
    now rewrite IH.
  - intros y Hy. now apply derived_from_after_delete.
Qed.

End OnHistories.

End DeleteFacts.

(** ** What the chat lets the user delete, and what a submission adds *)

Section ChatPageFacts.

Import Chat ChatPage Transcript.

Lemma deletable_origin Date_parse now user_input versions feedbacks k m :
  In m (fst (buildMessageHistory Date_parse now user_input versions
               feedbacks k)) ->
  canDelete m = true ->
  exists g, In g feedbacks /\ m = feedback_message g
            /\ fb_is_valid g = false /\ fb_id g <> EmptyString
            /\ onDelete m = Some (fb_id g).
Proof.
  intros Hm Hc. rewrite build_segments in Hm.
  destruct Hm as [<- | Hm]; [discriminate|].
  apply (segments_members Date_parse now) in Hm.
  destruct Hm as [(v & _ & ->) | (g & v & Hg & _ & -> & _)]; [discriminate|].
  exists g. unfold canDelete, onDelete in *. simpl in *.
  destruct (fb_is_valid g); [discriminate|]. simpl in Hc.
  destruct (String.eqb_spec (fb_id g) EmptyString); [discriminate|].
  repeat split; auto.
Qed.

(** X11. In a loaded history the delete button is offered exactly on the
    messages of the feedbacks that are not valid and have a non-empty
    identifier, and it passes that identifier on; never on the original
    request or on a version.  With valid feedbacks only, nothing can be
    deleted. *)
Theorem X11_delete_is_offered_on_invalid_feedbacks_only
  Date_parse now user_input versions feedbacks k :
  let history :=
    fst (buildMessageHistory Date_parse now user_input versions feedbacks k) in
  Forall (fun m =>
            canDelete m = true ->
            exists g, In g feedbacks /\ m = feedback_message g
                      /\ fb_is_valid g = false /\ fb_id g <> EmptyString
                      /\ onDelete m = Some (fb_id g))
         history
  /\ (forall g, fb_is_valid g = false -> fb_id g <> EmptyString ->
                canDelete (feedback_message g) = true)
  /\ ((forall g, In g feedbacks -> fb_is_valid g = true) ->
      Forall (fun m => canDelete m = false) history).
Proof.
  cbv zeta. split; [|split].
  - apply Forall_forall. intros m Hm Hc.
    now apply (deletable_origin Date_parse now user_input versions feedbacks k).
  - intros g Hv Hid. unfold canDelete. simpl. rewrite Hv. simpl.
    destruct (String.eqb_spec (fb_id g) EmptyString); [contradiction|].
    reflexivity.
  - intros Hvalid. apply Forall_forall. intros m Hm.
    destruct (canDelete m) eqn:Hc; [|reflexivity].
    destruct (deletable_origin Date_parse now user_input versions feedbacks k
                m Hm Hc) as (g & Hg & _ & Hinv & _).
    rewrite (Hvalid g Hg) in Hinv. discriminate.
Qed.

Variable trim : string -> string.
Variable now : nat -> Z.



(** X13. The messages a submission adds carry no back-reference: no delete
    button is offered on them, and deleting any feedback afterwards leaves
    them in place behind what the deletion leaves of the earlier messages. *)
Theorem X13_submitted_messages_cannot_be_deleted call p k :
  let p' := fst (submitFeedback trim now call p k) in
  exists added,
    messages (state p') = messages (state p) ++ added
    /\ Forall (fun m => canDelete m = false /\ onDelete m = None) added
    /\ forall x,
         messages (deleteFeedback x (Fulfilled {| ok := true |}) (state p')) =
         messages (deleteFeedback x (Fulfilled {| ok := true |}) (state p))
         ++ added.
Proof.
  cbv zeta. unfold submitFeedback.
  destruct (blank trim (feedbackText p) || _) eqn:G.
  - exists []. simpl. rewrite !app_nil_r. repeat split; auto.
    intros x. now rewrite app_nil_r.
  - unfold submitFeedback_try, Date_now, JS.bind, JS.ret, appendMessage,
      JS.push.
    destruct call as [[[[|]] [data|r]]|r]; simpl;
      try (eexists [_]; repeat split;
           [repeat constructor; reflexivity
           | intros x; rewrite filter_app; reflexivity]).
    eexists [_; _]. rewrite <- app_assoc. repeat split.
    + repeat constructor; reflexivity.
    + intros x. rewrite filter_app. reflexivity.
Qed.


End ChatPageFacts.

(** ** The feedbacks page: tabs, groups and deletion *)

Section ObjectFacts.

Context {V : Type}.

Import JSObject.

Lemma get_set_same (o : Obj V) key v : get (set o key v) key = Some v.
Proof.
  induction o as [|[k v'] o IH]; simpl.
  - now rewrite String.eqb_refl.
  - destruct (k =? key)%string eqn:E; simpl; rewrite E; auto.
Qed.

Lemma get_set_other (o : Obj V) key key' v :
  key <> key' -> get (set o key v) key' = get o key'.
Proof.
  intros Hne. induction o as [|[k v'] o IH]; simpl.
  - destruct (String.eqb_spec key key'); [contradiction | reflexivity].
  - destruct (String.eqb_spec k key) as [->|]; simpl.
    + destruct (String.eqb_spec key key'); [contradiction | reflexivity].
    + destruct (k =? key')%string; auto.
Qed.

Lemma get_none_keys (o : Obj V) key :
  get o key = None <-> ~ In key (map fst o).
Proof.
  induction o as [|[k v] o IH]; simpl; [tauto|].
  destruct (String.eqb_spec k key) as [->|Hne].
  - split; [discriminate | intros H; exfalso; apply H; now left].
  - rewrite IH. tauto.
Qed.

Lemma keys_set (o : Obj V) key v :
  map fst (set o key v) =
  match get o key with
  | Some _ => map fst o
  | None => map fst o ++ [key]
  end.
Proof.
  induction o as [|[k v'] o IH]; simpl; [reflexivity|].
  destruct (k =? key)%string; simpl; [reflexivity|].
  rewrite IH. now destruct (get o key).
Qed.

Lemma NoDup_keys_set (o : Obj V) key v :
  NoDup (map fst o) -> NoDup (map fst (set o key v)).
Proof.
  intros Hnd. rewrite keys_set. destruct (get o key) eqn:G; [exact Hnd|].
  apply get_none_keys in G.
  apply NoDup_rev in Hnd. rewrite <- (rev_involutive (map fst o ++ [key])).
  apply NoDup_rev. rewrite rev_app_distr. simpl. constructor; [|exact Hnd].
  now rewrite <- in_rev.
Qed.

Lemma In_get (o : Obj V) key v :
  NoDup (map fst o) -> (In (key, v) o <-> get o key = Some v).
Proof.
  induction o as [|[k v'] o IH]; simpl; intros Hnd.
  - split; [intros [] | discriminate].
  - inversion Hnd as [|? ? Hnotin Hrest]; subst.
    destruct (String.eqb_spec k key) as [->|Hne].
    + split.
      * intros [E | Hin]; [now injection E as -> |].
        exfalso. apply Hnotin. apply (in_map fst) in Hin. exact Hin.
      * intros [= ->]. now left.
    + rewrite <- (IH Hrest). split; [|now right].
      intros [E | Hin]; [injection E as -> _; contradiction | exact Hin].
Qed.

End ObjectFacts.

Section FeedbacksPageFacts.

Import FeedbacksPage.

Local Abbreviation of_key key :=
  (List.filter (fun f => (group_key f =? key)%string)).

Lemma length_valid_invalid (fs : list Feedback) :
  List.length fs =
  (List.length (List.filter (fun f => is_valid f) fs)
   + List.length (List.filter (fun f => negb (is_valid f)) fs))%nat.
Proof.
  induction fs as [|f fs IH]; simpl; [reflexivity|].
  destruct (is_valid f); simpl; lia.
Qed.

Lemma valid_invalid_permutation (fs : list Feedback) :
  Permutation
    (List.filter (fun f => is_valid f) fs
     ++ List.filter (fun f => negb (is_valid f)) fs) fs.
Proof.
  induction fs as [|f fs IH]; simpl; [constructor|].
  destruct (is_valid f); simpl.
  - now constructor.
  - symmetry. apply Permutation_cons_app. now symmetry.
Qed.

(** X15. The numbers on the three tabs add up: All is Valid plus Invalid.
    The list under a tab has the number of entries its tab shows; the All
    tab lists every feedback, and the lists of the Valid and the Invalid
    tab together hold every feedback once. *)
Theorem X15_tab_counts_add_up fs loading toasts :
  let page f := {| feedbacks := fs; loading := loading; filter := f;
                   toasts := toasts |} in
  count_all (page all) = (count_valid (page all) + count_invalid (page all))%nat
  /\ filteredFeedbacks (page all) = fs
  /\ List.length (filteredFeedbacks (page valid)) = count_valid (page all)
  /\ List.length (filteredFeedbacks (page invalid)) = count_invalid (page all)
  /\ Permutation (filteredFeedbacks (page valid)
                  ++ filteredFeedbacks (page invalid)) fs.
Proof.
  cbv zeta. unfold count_all, count_valid, count_invalid, filteredFeedbacks.
  simpl. split; [apply length_valid_invalid|]. split.
  - induction fs as [|f l IH]; simpl; congruence.
  - repeat split; auto. apply valid_invalid_permutation.
Qed.

Lemma get_group acc f key :
  JSObject.get (group acc f) key =
  if (group_key f =? key)%string
  then Some (match JSObject.get acc key with Some ms => ms | None => [] end
             ++ [f])
  else JSObject.get acc key.
Proof.
  unfold group.
  destruct (String.eqb_spec (group_key f) key) as [<-|Hne].
  - destruct (JSObject.get acc (group_key f)) as [ms|] eqn:G.
    + rewrite G. apply get_set_same.
    + rewrite get_set_same. unfold JS.push. simpl. apply get_set_same.
  - destruct (JSObject.get acc (group_key f)) as [ms|] eqn:G.
    + rewrite G. now apply get_set_other.
    + rewrite get_set_same. rewrite !get_set_other by exact Hne. reflexivity.
Qed.

Lemma NoDup_keys_group acc f :
  NoDup (map fst acc) -> NoDup (map fst (group acc f)).
Proof.
  intros Hnd. unfold group.
  destruct (JSObject.get acc (group_key f)) as [ms|] eqn:G.
  - rewrite G. now apply NoDup_keys_set.
  - rewrite get_set_same. now apply NoDup_keys_set, NoDup_keys_set.
Qed.

Lemma get_grouped fs key : forall acc,
  JSObject.get (fold_left group fs acc) key =
  match of_key key fs with
  | [] => JSObject.get acc key
  | ms => Some (match JSObject.get acc key with Some ms0 => ms0 | None => [] end
                ++ ms)
  end.
Proof.
  induction fs as [|f fs IH]; intros acc; simpl; [reflexivity|].
  rewrite IH, get_group.
  destruct (group_key f =? key)%string; simpl.
  - destruct (of_key key fs); simpl; [reflexivity|].
    now rewrite <- app_assoc.
  - reflexivity.
Qed.

Lemma NoDup_keys_grouped fs : forall acc,
  NoDup (map fst acc) -> NoDup (map fst (fold_left group fs acc)).
Proof.
  induction fs as [|f fs IH]; intros acc Hnd; simpl; [exact Hnd|].
  apply IH. now apply NoDup_keys_group.
Qed.

Lemma concat_set_new (o : JSObject.Obj (list Feedback)) key :
  List.concat (map snd (JSObject.set o key [])) = List.concat (map snd o)
  \/ JSObject.get o key <> None.
Proof.
  induction o as [|[k v] o IH]; simpl; [now left|].
  destruct (k =? key)%string; [right; discriminate|].
  destruct IH as [IH | IH]; [left | now right].
  simpl. now rewrite IH.
Qed.

Lemma concat_set_push (o : JSObject.Obj (list Feedback)) key ms f :
  JSObject.get o key = Some ms ->
  Permutation (List.concat (map snd (JSObject.set o key (ms ++ [f]))))
              (List.concat (map snd o) ++ [f]).
Proof.
  induction o as [|[k v] o IH]; simpl; [discriminate|].
  destruct (k =? key)%string.
  - intros [= ->]. simpl. rewrite <- !app_assoc.
    apply Permutation_app_head. apply Permutation_app_comm.
  - intros G. simpl. rewrite <- app_assoc.
    apply Permutation_app_head. now apply IH.
Qed.

Lemma concat_group acc f :
  Permutation (List.concat (map snd (group acc f))) (List.concat (map snd acc) ++ [f]).
Proof.
  unfold group.
  destruct (JSObject.get acc (group_key f)) as [ms|] eqn:G.
  - rewrite G. now apply concat_set_push.
  - rewrite get_set_same. unfold JS.push.
    destruct (concat_set_new acc (group_key f)) as [E | NE];
      [|contradiction].
    rewrite <- E.
    apply (concat_set_push (JSObject.set acc (group_key f) [])
             (group_key f) [] f).
    apply get_set_same.
Qed.

Lemma concat_grouped fs : forall acc,
  Permutation (List.concat (map snd (fold_left group fs acc)))
              (List.concat (map snd acc) ++ fs).
Proof.
  induction fs as [|f fs IH]; intros acc; simpl.
  - now rewrite app_nil_r.
  - rewrite IH. rewrite (concat_group acc f). rewrite <- app_assoc.
    reflexivity.
Qed.

(** X16. The groups of the feedbacks page split the listed feedbacks by
    key: the keys are distinct, no group is empty, the group of a key holds
    exactly the listed feedbacks with that key, in the order of the list,
    and all groups together hold every listed feedback once. *)
Theorem X16_groups_split_the_listed_feedbacks st :
  let groups := groupedFeedbacks st in
  NoDup (map fst groups)
  /\ (forall key members,
        In (key, members) groups ->
        members <> [] /\ members = of_key key (filteredFeedbacks st))
  /\ (forall f, In f (filteredFeedbacks st) ->
        In (group_key f, of_key (group_key f) (filteredFeedbacks st)) groups)
  /\ Permutation (List.concat (map snd groups)) (filteredFeedbacks st).
Proof.
  cbv zeta. unfold groupedFeedbacks.
  assert (Hnd : NoDup (map fst (fold_left group (filteredFeedbacks st) [])))
    by (apply NoDup_keys_grouped; constructor).
  split; [exact Hnd|]. split; [|split].
  - intros key members Hin. apply (In_get _ _ _ Hnd) in Hin.
    rewrite get_grouped in Hin. simpl in Hin.
    destruct (of_key key (filteredFeedbacks st)) as [|m ms]; [discriminate|].
    injection Hin as <-. split; [discriminate | reflexivity].
  - intros f Hf. apply (In_get _ _ _ Hnd). rewrite get_grouped. simpl.
    destruct (of_key (group_key f) (filteredFeedbacks st)) as [|m ms] eqn:E;
      [|reflexivity].
    assert (Hin : In f (of_key (group_key f) (filteredFeedbacks st))).
    { apply List.filter_In. split; [exact Hf | apply String.eqb_refl]. }
    rewrite E in Hin. destruct Hin.
  - apply (concat_grouped (filteredFeedbacks st) []).
Qed.

Lemma has_hyphen_app a b : has_hyphen (a ++ String "-" b)%string = true.
Proof.
  unfold has_hyphen. induction a as [|c a IH]; [reflexivity|].
  change (String c a ++ String "-" b)%string
    with (String c (a ++ String "-" b))%string.
  cbn [list_ascii_of_string existsb]. rewrite IH. apply orb_true_r.
Qed.

Lemma key_parts b1 : forall b2 t1 t2,
  has_hyphen t1 = false -> has_hyphen t2 = false ->
  (b1 ++ "-" ++ t1 = b2 ++ "-" ++ t2)%string -> b1 = b2 /\ t1 = t2.
Proof.
  induction b1 as [|c b1 IH]; intros [|c' b2] t1 t2 H1 H2 E; simpl in E.
  - injection E as ->. auto.
  - injection E as <- ->. now rewrite has_hyphen_app in H1.
  - injection E as -> <-. now rewrite has_hyphen_app in H2.
  - injection E as -> E. destruct (IH b2 t1 t2 H1 H2 E) as [-> ->]. auto.
Qed.

(** X17. Two feedbacks whose email types are labels of [public.email_type]
    get the same group key only when they have the same brand name and the
    same email type: a group never mixes two of these pairs, even when a
    brand name itself holds a hyphen. *)
Theorem X17_group_key_tells_brand_and_type_apart f g :
  In (drafts_email_type f) email_types ->
  In (drafts_email_type g) email_types ->
  group_key f = group_key g ->
  drafts_brands_name f = drafts_brands_name g
  /\ drafts_email_type f = drafts_email_type g.
Proof.
  intros Hf Hg E.
  assert (Hlabels : forall t, In t email_types -> has_hyphen t = false).
  { intros t [<- | [<- | [<- | [<- | []]]]]; reflexivity. }
  apply key_parts; auto.
Qed.

Lemma grouped_lookup st key :
  JSObject.get (groupedFeedbacks st) key =
  match of_key key (filteredFeedbacks st) with
  | [] => None
  | ms => Some ms
  end.
Proof.
  unfold groupedFeedbacks. rewrite get_grouped. simpl.
  now destruct (of_key key (filteredFeedbacks st)).
Qed.

(** X18. On the feedbacks page a deletion that the user declines changes
    nothing, and one whose query fails leaves the list as it was.  After a
    successful deletion the list is the old one without the feedbacks of
    that identifier, in order, and every group is the old group of its key
    without them: a group left empty is gone. *)
Theorem X18_page_deletion_updates_list_and_groups x confirmed result st :
  let st' := deleteFeedback x confirmed result st in
  let done :=
    confirmed
    && match result with
       | Chat.Fulfilled r =>
           match Chat.error r with None => true | Some _ => false end
       | Chat.Rejected _ => false
       end in
  (confirmed = false -> st' = st)
  /\ filter st' = filter st
  /\ feedbacks st' =
     (if done
      then List.filter (fun f => negb (id f =? x)%string) (feedbacks st)
      else feedbacks st)
  /\ (done = true ->
      forall key,
        JSObject.get (groupedFeedbacks st') key =
        match List.filter (fun f => negb (id f =? x)%string)
                (match JSObject.get (groupedFeedbacks st) key with
                 | Some ms => ms | None => [] end) with
        | [] => None
        | ms => Some ms
        end).
Proof.
  cbv zeta. unfold deleteFeedback.
  destruct confirmed; simpl; [|repeat split; auto; discriminate].
  destruct result as [[d [e|]]|r]; simpl;
    repeat split; auto; try discriminate.
  intros _ key. rewrite !grouped_lookup. unfold filteredFeedbacks. simpl.
  rewrite (filter_swap _ (fun f => negb (id f =? x)%string)).
  rewrite (filter_swap _ (fun f => negb (id f =? x)%string)).
  set (old := List.filter (fun f => (group_key f =? key)%string) _).
  destruct old as [|m ms]; reflexivity.
Qed.

End FeedbacksPageFacts.

(** ** The campaign edge function: what a call writes and answers *)

Section EdgeFacts.

Import Edge.

Variable checks : Checks.

Lemma feedback_row_lacks_user_id uuid now request :
  Schema.new_row uuid now (Campaign.feedback_values (to_Campaign request))
  = None.
Proof.
  unfold Schema.new_row, Campaign.feedback_values. simpl.
  now destruct (draft_id request).
Qed.

Lemma handler_try_of_feedback fresh request db :
  Campaign.isNewDraft (to_Campaign request) = false ->
  exists error,
    handler_try checks fresh (Chat.Fulfilled request) db = (inl (inr error), db)
    /\ (error = not_a_single_row \/ error = not_null_violation).
Proof.
  intros Hold. unfold handler_try. rewrite Hold.
  destruct (current_version_of checks _ db) as [e|current] eqn:Hcur.
  - exists e. split; [reflexivity|]. left.
    unfold current_version_of in Hcur.
    destruct (List.filter _ _) as [|r [|r' rs]]; congruence.
  - rewrite feedback_row_lacks_user_id. exists not_null_violation. auto.
Qed.

(** X19. A request that names a draft, which is a feedback on that draft,
    is always answered with status 500 and writes nothing: when the draft is
    found, the feedback the handler inserts leaves out [user_id], which
    [email_feedbacks] declares [NOT NULL].  No revision is ever generated
    this way. *)
Theorem X19_feedback_request_is_always_refused fresh method request db :
  method <> "OPTIONS" ->
  Campaign.isNewDraft (to_Campaign request) = false ->
  exists error,
    handler checks fresh method (Chat.Fulfilled request) db =
    ({| status := 500; body := failed_with (inr error) |}, db)
    /\ (error = not_a_single_row \/ error = not_null_violation).
Proof.
  intros Hm Hold. unfold handler.
  destruct (String.eqb_spec method "OPTIONS"); [contradiction|].
  destruct (handler_try_of_feedback fresh request db Hold) as (e & Heq & He).
  rewrite Heq. exists e. auto.
Qed.

(** X20. For a request without a draft identifier whose draft row the
    database takes, the handler adds that draft with current version 1.
    When the database also takes the first version, the handler adds it with
    number 1 and the generated content and answers 200 with the identifier
    of the draft and that content; when it does not, the answer is 500 and
    the draft stays in the table without any version. *)
Theorem X20_new_draft_is_written_in_two_steps
  fresh method request db draft :
  method <> "OPTIONS" ->
  Campaign.isNewDraft (to_Campaign request) = true ->
  new_draft (draft_uuid fresh) (draft_now fresh) request = inr draft ->
  accepts_draft checks draft = true ->
  let version :=
    {| v_id := version_uuid fresh; v_draft_id := draft_uuid fresh;
       v_version := 1; v_content := generateEmailContent request;
       v_created_at := version_now fresh |} in
  d_current_version draft = 1 /\ d_id draft = draft_uuid fresh
  /\ handler checks fresh method (Chat.Fulfilled request) db =
     if accepts_version checks version
     then ({| status := 200;
              body := generated (draft_uuid fresh)
                        (generateEmailContent request) |},
           {| drafts_table := drafts_table db ++ [draft];
              draft_versions_table := draft_versions_table db ++ [version];
              email_feedbacks_table := email_feedbacks_table db |})
     else ({| status := 500; body := failed_with (inr refused) |},
           {| drafts_table := drafts_table db ++ [draft];
              draft_versions_table := draft_versions_table db;
              email_feedbacks_table := email_feedbacks_table db |}).
Proof.
  intros Hm Hnew Hdraft Hacc. cbv zeta.
  assert (Hshape : d_current_version draft = 1 /\ d_id draft = draft_uuid fresh).
  { unfold new_draft in Hdraft.
    destruct (user_id request), (brand_id request), (email_type request),
      (user_input request); try discriminate.
    destruct (is_label _); [|discriminate].
    injection Hdraft as <-. auto. }
  destruct Hshape as [Hcv Hid]. repeat split; auto.
  unfold handler, handler_try.
  destruct (String.eqb_spec method "OPTIONS"); [contradiction|].
  rewrite Hnew, Hdraft, Hacc, Hid. simpl.
  destruct (accepts_version checks _); reflexivity.
Qed.

Lemma is_label_In t : is_label t = true -> In t email_type_labels.
Proof.
  unfold is_label. intros H. apply existsb_exists in H.
  destruct H as (label & Hin & E). apply String.eqb_eq in E. now subst.
Qed.

Lemma content_of_label request t :
  email_type request = Some t -> In t email_type_labels ->
  (t = "product" /\ generateEmailContent request = product_email request)
  \/ (t = "sales" /\ generateEmailContent request = sales_email request)
  \/ (t = "news" /\ generateEmailContent request = news_email request)
  \/ (t = "community"
      /\ generateEmailContent request = community_email request).
Proof.
  intros Ht Hin. unfold generateEmailContent. rewrite Ht.
  destruct Hin as [<- | [<- | [<- | [<- | []]]]]; simpl; auto 6.
Qed.

(** X21. Whenever the handler answers 200, either the call was a preflight
    ([OPTIONS], no body), or the request had no draft identifier, its email
    type is one of the four labels of [public.email_type], and the body
    carries the identifier of the new draft and the content of the template
    of that type.  So neither the template for other email types nor a
    revised content is ever sent with status 200. *)
Theorem X21_what_a_200_answer_carries fresh method json db :
  status (fst (handler checks fresh method json db)) = 200 ->
  (method = "OPTIONS"
   /\ body (fst (handler checks fresh method json db)) = no_body)
  \/ (exists request t,
        json = Chat.Fulfilled request
        /\ Campaign.isNewDraft (to_Campaign request) = true
        /\ email_type request = Some t
        /\ body (fst (handler checks fresh method json db))
           = generated (draft_uuid fresh) (generateEmailContent request)
        /\ ((t = "product"
             /\ generateEmailContent request = product_email request)
            \/ (t = "sales"
                /\ generateEmailContent request = sales_email request)
            \/ (t = "news"
                /\ generateEmailContent request = news_email request)
            \/ (t = "community"
                /\ generateEmailContent request = community_email request))).
Proof.
  unfold handler.
  destruct (String.eqb_spec method "OPTIONS") as [->|Hm]; [now left|].
  destruct json as [request|reason]; [|simpl; discriminate].
  destruct (Campaign.isNewDraft (to_Campaign request)) eqn:Hnew.
  - unfold handler_try. rewrite Hnew.
    destruct (new_draft _ _ request) as [e|draft] eqn:Hdraft;
      [simpl; discriminate|].
    destruct (accepts_draft checks draft); [|simpl; discriminate].
    simpl. destruct (accepts_version checks _); [|simpl; discriminate].
    simpl. intros _. right.
    unfold new_draft in Hdraft.
    destruct (user_id request), (brand_id request),
      (email_type request) as [t|] eqn:Ht,
      (user_input request); try discriminate.
    destruct (is_label t) eqn:Hl; [|discriminate].
    injection Hdraft as <-. simpl.
    exists request, t. repeat split; auto.
    apply content_of_label; [exact Ht | now apply is_label_In].
  - destruct (handler_try_of_feedback fresh request db Hnew) as (e & Heq & _).
    rewrite Heq. simpl. discriminate.
Qed.

Lemma handler_appends fresh method json db :
  exists more_drafts more_versions,
    snd (handler checks fresh method json db) =
    {| drafts_table := drafts_table db ++ more_drafts;
       draft_versions_table := draft_versions_table db ++ more_versions;
       email_feedbacks_table := email_feedbacks_table db |}
    /\ Forall (fun row => d_current_version row = 1) more_drafts
    /\ Forall (fun row => v_version row = 1) more_versions.
Proof.
  assert (Hsame : exists more_drafts more_versions,
             db = {| drafts_table := drafts_table db ++ more_drafts;
                     draft_versions_table :=
                       draft_versions_table db ++ more_versions;
                     email_feedbacks_table := email_feedbacks_table db |}
             /\ Forall (fun row => d_current_version row = 1) more_drafts
             /\ Forall (fun row => v_version row = 1) more_versions).
  { exists [], []. rewrite !app_nil_r. destruct db. auto. }
  unfold handler.
  destruct (method =? "OPTIONS")%string; [exact Hsame|].
  destruct json as [request|reason]; [|exact Hsame].
  destruct (Campaign.isNewDraft (to_Campaign request)) eqn:Hnew.
  - unfold handler_try. rewrite Hnew.
    destruct (new_draft _ _ request) as [e|draft] eqn:Hdraft; [exact Hsame|].
    assert (Hcv : d_current_version draft = 1).
    { unfold new_draft in Hdraft.
      destruct (user_id request), (brand_id request), (email_type request),
        (user_input request); try discriminate.
      destruct (is_label _); [|discriminate]. now injection Hdraft as <-. }
    destruct (accepts_draft checks draft); [|exact Hsame]. simpl.
    destruct (accepts_version checks _); simpl.
    + eexists [draft], [_]. repeat split; repeat constructor; auto.
    + exists [draft], []. rewrite app_nil_r.
      repeat split; repeat constructor; auto.
  - destruct (handler_try_of_feedback fresh request db Hnew) as (e & Heq & _).
    rewrite Heq. exact Hsame.
Qed.

(** X22. Whatever calls the handler serves, it only appends to [drafts] and
    [draft_versions]: the rows that were there stay as they were, every
    draft it adds has current version 1, every version it adds has number
    1, and [email_feedbacks] is left as it was.  No call ever raises the
    version of a draft. *)
Theorem X22_calls_only_append_first_versions calls db :
  exists more_drafts more_versions,
    serve checks calls db =
    {| drafts_table := drafts_table db ++ more_drafts;
       draft_versions_table := draft_versions_table db ++ more_versions;
       email_feedbacks_table := email_feedbacks_table db |}
    /\ Forall (fun row => d_current_version row = 1) more_drafts
    /\ Forall (fun row => v_version row = 1) more_versions.
Proof.
  unfold serve. revert db.
  induction calls as [|[[fresh method] json] calls IH]; intros db; simpl.
  - exists [], []. rewrite !app_nil_r. destruct db. auto.
  - destruct (handler_appends fresh method json db)
      as (d1 & v1 & Heq & Hd1 & Hv1).
    destruct (IH (snd (handler checks fresh method json db)))
      as (d2 & v2 & Heq2 & Hd2 & Hv2).
    rewrite Heq2, Heq. simpl.
    exists (d1 ++ d2), (v1 ++ v2). rewrite !app_assoc.
    repeat split; auto; apply Forall_app; auto.
Qed.

Lemma string_app_assoc (a b c : string) :
  ((a ++ b) ++ c = a ++ (b ++ c))%string.
Proof. induction a as [|ch a IH]; simpl; [reflexivity | now rewrite IH]. Qed.

Lemma lines_ends_with (ls : list string) (x last : string) :
  exists before,
    lines (x :: ls ++ [last]) = (before ++ nl ++ last)%string.
Proof.
  revert x. induction ls as [|y ls IH]; intros x.
  - exists x. reflexivity.
  - destruct (IH y) as (before & E).
    exists (x ++ nl ++ before)%string.
    change (lines (x :: (y :: ls) ++ [last]))
      with (x ++ nl ++ lines (y :: ls ++ [last]))%string.
    rewrite E. now rewrite !string_app_assoc.
Qed.

Lemma template_shape (l1 l3 input r : string) (middle : list string)
  (last : string) :
  let content :=
    lines (l1 :: EmptyString :: l3 :: EmptyString :: input :: EmptyString
              :: r :: middle ++ [last]) in
  (exists before after,
     content = (before ++ nl ++ nl ++ input ++ nl ++ nl ++ after)%string)
  /\ (exists before, content = (before ++ nl ++ last)%string).
Proof.
  cbv zeta. split.
  - exists (l1 ++ nl ++ nl ++ l3)%string, (lines (r :: middle ++ [last])).
    change (lines (l1 :: EmptyString :: l3 :: EmptyString :: input
                      :: EmptyString :: r :: middle ++ [last]))
      with (l1 ++ nl ++ nl ++ l3 ++ nl ++ nl ++ input ++ nl ++ nl
               ++ lines (r :: middle ++ [last]))%string.
    now rewrite !string_app_assoc.
  - apply (lines_ends_with
             (EmptyString :: l3 :: EmptyString :: input :: EmptyString
                :: r :: middle) l1 last).
Qed.

Lemma content_cases request :
  generateEmailContent request = product_email request
  \/ generateEmailContent request = sales_email request
  \/ generateEmailContent request = news_email request
  \/ generateEmailContent request = community_email request
  \/ generateEmailContent request = default_email request.
Proof.
  unfold generateEmailContent.
  destruct (email_type request) as [t|]; [|auto 6].
  destruct (t =? "product")%string; [auto|].
  destruct (t =? "sales")%string; [auto|].
  destruct (t =? "news")%string; [auto 6|].
  destruct (t =? "community")%string; auto 6.
Qed.

(** X23. Whatever the request, the generated email opens with a subject
    line, carries the request text as a paragraph of its own, and closes
    with the line of the brand's team.  The revised email is the generated
    one followed by a blank line and a note that quotes the feedback. *)
Theorem X23_generated_email_has_subject_request_and_signature request :
  let content := generateEmailContent request in
  (exists rest, content = ("Subject: " ++ rest)%string)
  /\ (exists before after,
        content = (before ++ nl ++ nl ++ interpolate (user_input request)
                   ++ nl ++ nl ++ after)%string)
  /\ (exists before,
        content = (before ++ nl ++ "The "
                   ++ brand_name (brand_details request) ++ " Team")%string)
  /\ generateRevisedEmailContent request =
     (content ++ nl ++ nl ++ "---" ++ nl
      ++ "Revised based on your feedback: " ++ quote
      ++ interpolate (feedback_text request) ++ quote ++ nl ++ "---")%string.
Proof.
  cbv zeta. split; [|split; [|split]].
  - destruct (content_cases request) as [E | [E | [E | [E | E]]]]; rewrite E;
      eexists; cbv [product_email sales_email news_email community_email
                    default_email lines String.concat];
      rewrite ?string_app_assoc; reflexivity.
  - destruct (content_cases request) as [E | [E | [E | [E | E]]]]; rewrite E.
    + apply (template_shape _ _ _ _ [_; _; _; _; _; _] _).
    + apply (template_shape _ _ _ _ [_; _; _; _; _; _] _).
    + apply (template_shape _ _ _ _ [_; _; _; _; _; _] _).
    + apply (template_shape _ _ _ _ [_; _; _; _] _).
    + apply (template_shape _ _ _ _ [_; _] _).
  - destruct (content_cases request) as [E | [E | [E | [E | E]]]]; rewrite E.
    + apply (template_shape _ _ _ _ [_; _; _; _; _; _] _).
    + apply (template_shape _ _ _ _ [_; _; _; _; _; _] _).
    + apply (template_shape _ _ _ _ [_; _; _; _; _; _] _).
    + apply (template_shape _ _ _ _ [_; _; _; _] _).
    + apply (template_shape _ _ _ _ [_; _] _).
  - unfold generateRevisedEmailContent, lines. simpl.
    now rewrite ?string_app_assoc.
Qed.

End EdgeFacts.

(** ** The sidebar: a draft is deleted in three steps *)

Section SidebarFacts.

Import Sidebar.

(** X24. [handleDeleteDraft] sends the delete for the versions, then for the
    feedbacks, then for the draft, and stops at the first that fails: the
    list of drafts, the route and the loading flag then stay as they were
    and one error notification carries the message of the failed step, even
    though the earlier deletes were sent.  Only when all three pass is the
    draft taken off the list (the others keeping their order), and the page
    goes to the route of a new chat exactly when the deleted draft is the
    one on the route.  In every case no draft is left marked as being
    deleted. *)
Theorem X24_draft_deletion_stops_at_the_first_failure
  draft_id draftId versions feedback draft st :
  let result :=
    handleDeleteDraft draft_id draftId versions feedback draft st in
  let sent := fst result in
  let st' := snd result in
  deletingDraftId st' = None /\ loading st' = loading st
  /\ (Chat.failed versions = true -> sent = ["draft_versions"])
  /\ (Chat.failed versions = false -> Chat.failed feedback = true ->
      sent = ["draft_versions"; "email_feedbacks"])
  /\ (Chat.failed versions = false -> Chat.failed feedback = false ->
      sent = ["draft_versions"; "email_feedbacks"; "drafts"])
  /\ (Chat.failed versions = true \/ Chat.failed feedback = true
      \/ Chat.failed draft = true ->
      drafts st' = drafts st /\ location st' = location st
      /\ exists t, toasts st' = toasts st ++ [t]
                   /\ Chat.destructive t = true
                   /\ Chat.title t = "Error deleting draft")
  /\ (Chat.failed versions = false -> Chat.failed feedback = false ->
      Chat.failed draft = false ->
      drafts st' =
        List.filter (fun d => negb (id d =? draftId)%string) (drafts st)
      /\ location st' =
         (if match draft_id with
             | Some current => (current =? draftId)%string
             | None => false
             end
          then "/chat/new" else location st)
      /\ exists t, toasts st' = toasts st ++ [t]
                   /\ Chat.destructive t = false).
Proof.
  cbv zeta. unfold handleDeleteDraft, handleDeleteDraft_try, stage_failure.
  destruct versions as [[dv [ev|]]|rv], feedback as [[df [ef|]]|rf],
    draft as [[dd [ed|]]|rd];
    simpl;
    repeat match goal with
           | |- _ /\ _ => split
           | |- _ -> _ => intro
           end;
    try congruence;
    try match goal with
        | H : _ \/ _ |- _ => destruct H as [H | [H | H]]; congruence
        end;
    try (eexists; repeat split; reflexivity);
    try (destruct draft_id as [current|];
         [destruct (current =? draftId)%string|]; reflexivity);
    try (destruct draft_id as [current|];
         [destruct (current =? draftId)%string|];
         eexists; split; reflexivity).
Qed.

End SidebarFacts.

(** ** The further theorems at concrete rows *)

Section MoreRuns.

Import Chat ChatPage Transcript Examples Samples.

Local Abbreviation utc := JS.Date_parse_utc.

Lemma alike_at_noon (fs : list Feedback) :
  Forall (fun g => exists t, feedback_date utc g = Some t
                             /\ t < 1709294400000) fs ->
  forall g i j, In g fs ->
    JS.lt (feedback_date utc g) (Some (noon i)) =
    JS.lt (feedback_date utc g) (Some (noon j)).
Proof.
  intros Hall g i j Hg. rewrite Forall_forall in Hall.
  destruct (Hall g Hg) as (t & Ht & Hlt).
  rewrite !(before_noon g t Ht Hlt). reflexivity.
Defined.

Lemma X3_witness :
  exists pre sel post,
    fst (buildMessageHistory utc noon request [draftA; draftB] [f1; f2] 0%nat) =
      pre ++ version_message draftA :: map feedback_message sel ++ post
    /\ assistants pre = 0%nat
    /\ match post with [] => True | m :: _ => type m = assistant end
    /\ Forall (fun g =>
                 In g [f1; f2]
                 /\ JS.lt (version_date utc draftA) (feedback_date utc g) = true
                 /\ (forall v', nth_error [draftA; draftB] 1 = Some v' ->
                                dv_created_at v' <> EmptyString ->
                                JS.lt (feedback_date utc g) (version_date utc v')
                                = true)
                 /\ (nth_error [draftA; draftB] 1 = None ->
                     exists n, JS.lt (feedback_date utc g) (Some (noon n))
                               = true))
              sel.
Proof.
  apply (X3_window_holds_only_feedbacks_of_its_interval utc noon request
           [draftA; draftB] [f1; f2] 0%nat 0%nat draftA).
  reflexivity.
Defined.

Lemma X4_witness :
  derived_from "f5"
    (fst (buildMessageHistory utc noon request [draftA; draftB]
            [f_before; f1; f_unparsed] 0%nat)) = 0%nat
  /\ derived_from "f6"
       (fst (buildMessageHistory utc noon request [draftA; draftB]
               [f_before; f1; f_unparsed] 0%nat)) = 0%nat.
Proof.
  split.
  - apply (X4_feedback_later_than_no_version_is_left_out utc noon request
             [draftA; draftB] [f_before; f1; f_unparsed] 0%nat f_before).
    + apply distinct_ids. vm_compute. reflexivity.
    + simpl. auto.
    + intros v [<- | [<- | []]]; vm_compute; reflexivity.
  - apply (X4_feedback_later_than_no_version_is_left_out utc noon request
             [draftA; draftB] [f_before; f1; f_unparsed] 0%nat f_unparsed).
    + apply distinct_ids. vm_compute. reflexivity.
    + simpl. auto.
    + intros v [<- | [<- | []]]; vm_compute; reflexivity.
Defined.

Lemma X5_witness :
  fst (fetchDraft utc noon (Some "d1")
         (Fulfilled {| data := Some d1; error := None |})
         (Fulfilled {| data := Some [draftA; draftB]; error := None |})
         (Fulfilled {| data := Some [f1]; error := None |}) page 0%nat) =
  {| draft := Some d1;
     messages :=
       fst (buildMessageHistory utc noon (d_user_input d1) [draftA; draftB]
              [f1] 0%nat);
     loading := false;
     toasts := toasts page;
     location := location page |}.
Proof.
  apply (X5_successful_load_shows_the_built_history utc noon "d1" d1
           (Some [draftA; draftB]) (Some [f1]) page 0%nat); discriminate.
Defined.

Lemma X6_witness :
  fetchDraft utc noon (Some "d1") (Fulfilled found_draft)
    (Fulfilled found_versions) (Fulfilled denied) page 0%nat =
  ({| draft := Some d1;
      messages := messages page;
      loading := false;
      toasts := toasts page ++ [ {| title := "Error loading draft";
                                    description := "Please try again.";
                                    destructive := true |} ];
      location := "/chat/new" |}, 0%nat).
Proof.
  apply (X6_failed_load_keeps_messages_but_may_replace_the_draft utc noon "d1"
           (Fulfilled found_draft) (Fulfilled found_versions)
           (Fulfilled denied) page 0%nat); try discriminate.
  right. right. reflexivity.
Defined.

Lemma X9_witness :
  messages
    (deleteFeedback "f1" (Fulfilled {| ok := true |})
       (setMessages
          (fst (buildMessageHistory utc noon request [draftA; draftB]
                  [f1; f2] 0%nat)) page)) =
  fst (buildMessageHistory utc noon request [draftA; draftB]
         (List.filter (fun g => negb (fb_id g =? "f1")%string) [f1; f2])
         5%nat).
Proof.
  apply (X9_delete_agrees_with_a_reload utc noon request [draftA; draftB]
           [f1; f2] "f1" page 0%nat 5%nat).
  apply alike_at_noon.
  repeat constructor.
  - exists 1709287500000. split; [vm_compute; reflexivity | lia].
  - exists 1709288100000. split; [vm_compute; reflexivity | lia].
Defined.



Lemma X17_witness :
  FeedbacksPage.drafts_brands_name FeedbackSamples.a1
  = FeedbacksPage.drafts_brands_name FeedbackSamples.a3
  /\ FeedbacksPage.drafts_email_type FeedbackSamples.a1
     = FeedbacksPage.drafts_email_type FeedbackSamples.a3.
Proof.
  apply (X17_group_key_tells_brand_and_type_apart FeedbackSamples.a1
           FeedbackSamples.a3).
  - simpl. auto.
  - simpl. auto.
  - reflexivity.
Defined.

Lemma X19_witness :
  exists error,
    Edge.handler EdgeSamples.open_door EdgeSamples.second "POST"
      (Fulfilled EdgeSamples.shorter) EdgeSamples.after_launch =
    ({| Edge.status := 500; Edge.body := Edge.failed_with (inr error) |},
     EdgeSamples.after_launch)
    /\ (error = Edge.not_a_single_row \/ error = Edge.not_null_violation).
Proof.
  apply (X19_feedback_request_is_always_refused EdgeSamples.open_door
           EdgeSamples.second "POST" EdgeSamples.shorter
           EdgeSamples.after_launch).
  - discriminate.
  - reflexivity.
Defined.

Lemma X20_witness :
  Edge.d_current_version EdgeSamples.launched = 1
  /\ Edge.d_id EdgeSamples.launched = "d1"
  /\ Edge.handler EdgeSamples.open_door EdgeSamples.first "POST"
       (Fulfilled EdgeSamples.launch) EdgeSamples.empty =
     ({| Edge.status := 200;
         Edge.body :=
           Edge.generated "d1" (Edge.generateEmailContent EdgeSamples.launch) |},
      EdgeSamples.after_launch).
Proof.
  apply (X20_new_draft_is_written_in_two_steps EdgeSamples.open_door
           EdgeSamples.first "POST" EdgeSamples.launch EdgeSamples.empty
           EdgeSamples.launched).
  - discriminate.
  - reflexivity.
  - reflexivity.
  - reflexivity.
Defined.

Lemma X21_witness :
  ("POST" = "OPTIONS"
   /\ Edge.body (fst (Edge.handler EdgeSamples.open_door EdgeSamples.first
                        "POST" (Fulfilled EdgeSamples.launch)
                        EdgeSamples.empty)) = Edge.no_body)
  \/ (exists request t,
        Fulfilled EdgeSamples.launch = Fulfilled request
        /\ Campaign.isNewDraft (Edge.to_Campaign request) = true
        /\ Edge.email_type request = Some t
        /\ Edge.body (fst (Edge.handler EdgeSamples.open_door
                             EdgeSamples.first "POST"
                             (Fulfilled EdgeSamples.launch)
                             EdgeSamples.empty))
           = Edge.generated "d1" (Edge.generateEmailContent request)
        /\ ((t = "product"
             /\ Edge.generateEmailContent request = Edge.product_email request)
            \/ (t = "sales"
                /\ Edge.generateEmailContent request
                   = Edge.sales_email request)
            \/ (t = "news"
                /\ Edge.generateEmailContent request = Edge.news_email request)
            \/ (t = "community"
                /\ Edge.generateEmailContent request
                   = Edge.community_email request))).
Proof.
  apply (X21_what_a_200_answer_carries EdgeSamples.open_door
           EdgeSamples.first "POST" (Fulfilled EdgeSamples.launch)
           EdgeSamples.empty).
  vm_compute. reflexivity.
Defined.

End MoreRuns.
